(** * EncryptedOracleFHE: the encrypted-data lifecycle of the oracle contract

    A shallow embedding of [contracts/EncryptedOracleFHE.sol].  The contract
    storage is a record, every public function is a function from a storage
    (and the call's arguments) to either a new storage or a revert, and a
    reverted call leaves the storage as it was.  The fhEVM library the
    contract calls ([FHE.requestDecryption], [FHE.checkSignatures]) is not
    part of the repository: the signature check and the access-control
    list are variables of the development, and the request id the library
    picks is an input of the call. *)

From Stdlib Require Import NArith List Permutation Lia.
From Stdlib.Strings Require Import Byte.
From stdpp Require Import base option list sorting gmap.

Open Scope N_scope.

(** ** Solidity value types *)

Definition uint256_max : N := 2 ^ 256 - 1.
Definition uint32_max : N := 2 ^ 32 - 1.

(** [euint32] is a user-defined value type over [bytes32]: a handle. *)
Definition euint32 : Type := N.

(** [FHE.toBytes32] unwraps the handle. *)
Definition toBytes32 (e : euint32) : N := e.

(** Big-endian reading of a byte string, as the ABI lays out an integer. *)
Definition be_to_N (bs : list byte) : N :=
  foldl (fun acc b => acc * 256 + Byte.to_N b) 0 bs.

(** [abi.decode(cleartexts, (uint32))]: the payload holds at least one
    32-byte word, and the word fits 32 bits; otherwise the decoder reverts. *)
Definition abi_decode_uint32 (data : list byte) : option N :=
  if (length data <? 32)%nat then None
  else
    let word := be_to_N (take 32 data) in
    if word <=? uint32_max then Some word else None.

(** The 32-byte ABI encoding of a small value (used to build payloads). *)
Definition abi_word (low : byte) : list byte := replicate 31 x00 ++ [low].

(** ** Storage *)

Record EncryptedDataPoint := {
  edp_id : N;                 (* id *)
  encryptedValue : euint32;
  timestamp : N
}.

Record DecryptedDataPoint := {
  value : N;                  (* uint32 *)
  isRevealed : bool
}.

Inductive Event :=
| DataSubmitted (id : N) (timestamp : N)
| DecryptionRequested (id : N)
| DataDecrypted (id : N).

Global Instance Event_eq_dec : EqDecision Event.
Proof. solve_decision. Defined.

(** The contract's four storage variables, the event log (oldest first) and
    the requests handed to the decryption oracle, each with the request id
    the library picked and the ciphertext handles sent. *)
Record State := {
  dataCount : N;
  encryptedData : gmap N EncryptedDataPoint;
  decryptedData : gmap N DecryptedDataPoint;
  requestToDataId : gmap N N;
  events : list Event;
  oracleRequests : list (N * list N)
}.

(** A Solidity mapping is total: a key never written reads as the zero value. *)
Definition zeroEncrypted : EncryptedDataPoint :=
  {| edp_id := 0; encryptedValue := 0; timestamp := 0 |}.
Definition zeroDecrypted : DecryptedDataPoint :=
  {| value := 0; isRevealed := false |}.

Definition encryptedData_at (s : State) (k : N) : EncryptedDataPoint :=
  default zeroEncrypted (encryptedData s !! k).
Definition decryptedData_at (s : State) (k : N) : DecryptedDataPoint :=
  default zeroDecrypted (decryptedData s !! k).
Definition requestToDataId_at (s : State) (k : N) : N :=
  default 0 (requestToDataId s !! k).

(** The storage of a freshly deployed contract. *)
Definition deployed : State :=
  {| dataCount := 0; encryptedData := ∅; decryptedData := ∅;
     requestToDataId := ∅; events := []; oracleRequests := [] |}.

(** ** Reverts *)

Inductive Error :=
| Panic_overflow        (* checked [dataCount += 1] past 2^256 - 1 *)
| Already_decrypted     (* require(!isRevealed, "Already decrypted") *)
| Invalid_request       (* require(dataId != 0, "Invalid request") *)
| Invalid_signatures    (* FHE.checkSignatures reverted *)
| Abi_decode_failed     (* abi.decode reverted *)
| Sender_not_allowed    (* FHE.requestDecryption: SenderNotAllowed *)
| Handles_already_saved.  (* FHE.requestDecryption: HandlesAlreadySavedForRequestID *)

Inductive result (A : Type) :=
| Ok (a : A)
| Revert (e : Error).
Arguments Ok {A} a.
Arguments Revert {A} e.

(** ** The lifecycle as the specification names it

    The contract stores no reveal state of its own.  The three states of
    the specification are read off the storage: a target is [Revealed] when
    its [isRevealed] flag is set, [RequestPending] when it is not and some
    request id maps to it, and [Hidden] otherwise.  Target 0 can never be
    pending: a request id mapped to 0 reads as one that was never recorded. *)

Inductive RevealState := Hidden | RequestPending | Revealed.

Definition hasRequest (s : State) (dataId : N) : Prop :=
  dataId <> 0 /\ map_Exists (fun _ target => target = dataId) (requestToDataId s).

Global Instance hasRequest_dec s dataId : Decision (hasRequest s dataId).
Proof. unfold hasRequest. apply _. Defined.

Definition revealState (s : State) (dataId : N) : RevealState :=
  if isRevealed (decryptedData_at s dataId) then Revealed
  else if bool_decide (hasRequest s dataId) then RequestPending
  else Hidden.

(** The ids [submitEncryptedData] has assigned, in the order of assignment,
    as the [DataSubmitted] events carry them. *)
Definition submittedIds (log : list Event) : list N :=
  omap (fun e => match e with DataSubmitted i _ => Some i | _ => None end) log.

(** An id no [submitEncryptedData] call has assigned: ids start at 1 and the
    counter is the last one handed out. *)
Definition unassigned (s : State) (dataId : N) : Prop :=
  dataId = 0 \/ dataCount s < dataId.

Lemma hasRequest_at s dataId :
  hasRequest s dataId <->
  dataId <> 0 /\ exists r, requestToDataId_at s r = dataId.
Proof.
  unfold hasRequest, requestToDataId_at, map_Exists. split.
  - intros [Hnz (r & t & Hr & ->)]. split; [done|]. exists r. by rewrite Hr.
  - intros [Hnz [r Hr]]. split; [done|]. exists r, dataId.
    destruct (requestToDataId s !! r) as [t|] eqn:E; simpl in Hr; by subst.
Qed.

Lemma revealState_Revealed s dataId :
  revealState s dataId = Revealed <-> isRevealed (decryptedData_at s dataId) = true.
Proof.
  unfold revealState. destruct (isRevealed _); [done|].
  case_bool_decide; split; congruence.
Qed.

Lemma revealState_RequestPending s dataId :
  revealState s dataId = RequestPending <->
  isRevealed (decryptedData_at s dataId) = false /\ hasRequest s dataId.
Proof.
  unfold revealState. destruct (isRevealed _).
  - split; [congruence|]. intros [? _]. congruence.
  - case_bool_decide; split; try congruence; tauto.
Qed.

(** ** The contract *)

Section Contract.

(** [FHE.checkSignatures(requestId, cleartexts, proof)] returns when the
    proof authenticates the clear text for that request, and reverts
    otherwise; [true] stands for "returns". *)
Variable checkSignatures : N -> list byte -> list byte -> bool.

(** The access-control list the library consults: [senderAllowed h] holds
    when the contract has been allowed on handle [h].  The contract never
    allows itself on a handle ([FHE.allowThis] is not called), so whether it
    is allowed is decided outside it. *)
Variable senderAllowed : N -> bool.

(** [FHE.requestDecryption(ciphertexts, selector)], library code outside the
    repository, as far as the contract depends on it.  The call reverts
    with [SenderNotAllowed] unless the contract is allowed on every handle;
    the zero handle, which an uninitialised [euint32] holds, is allowed to
    nobody.  It then saves the handles under the request id it picked,
    [reqId], and reverts with [HandlesAlreadySavedForRequestID] when
    handles were saved under that id before.  Otherwise it returns the
    request id. *)
Definition FHE_requestDecryption (s : State) (ciphertexts : list N) (reqId : N)
    : result N :=
  if forallb (fun h => negb (h =? 0) && senderAllowed h) ciphertexts
  then
    if bool_decide (reqId ∈ (oracleRequests s).*1)
    then Revert Handles_already_saved
    else Ok reqId
  else Revert Sender_not_allowed.

(** [submitEncryptedData(encryptedValue)] at block time [block_timestamp]. *)
Definition submitEncryptedData (s : State) (encryptedValue0 : euint32)
    (block_timestamp : N) : result State :=
  if uint256_max <=? dataCount s then Revert Panic_overflow
  else
    let newId := dataCount s + 1 in
    Ok {| dataCount := newId;
          encryptedData :=
            <[newId := {| edp_id := newId;
                          encryptedValue := encryptedValue0;
                          timestamp := block_timestamp |}]> (encryptedData s);
          decryptedData :=
            <[newId := {| value := 0; isRevealed := false |}]> (decryptedData s);
          requestToDataId := requestToDataId s;
          events := events s ++ [DataSubmitted newId block_timestamp];
          oracleRequests := oracleRequests s |}.

(** [requestDataDecryption(dataId)]; [reqId] is the request id
    [FHE.requestDecryption(ciphertexts, this.decryptDataPoint.selector)]
    picks.  [onlySource] is an empty modifier.  [ciphertexts] is the
    one-element array holding the handle of the stored value.  A revert of
    the library call reverts the transaction. *)
Definition requestDataDecryption (s : State) (dataId reqId : N) : result State :=
  let dataPoint := encryptedData_at s dataId in
  if isRevealed (decryptedData_at s dataId) then Revert Already_decrypted
  else
    let ciphertexts := [toBytes32 (encryptedValue dataPoint)] in
    match FHE_requestDecryption s ciphertexts reqId with
    | Revert e => Revert e
    | Ok reqId' =>
        Ok {| dataCount := dataCount s;
              encryptedData := encryptedData s;
              decryptedData := decryptedData s;
              requestToDataId := <[reqId' := dataId]> (requestToDataId s);
              events := events s ++ [DecryptionRequested dataId];
              oracleRequests := oracleRequests s ++ [(reqId', ciphertexts)] |}
    end.

(** The two field writes of the callback, each on the record as it stands. *)
Definition write_value (m : gmap N DecryptedDataPoint) (k v : N)
    : gmap N DecryptedDataPoint :=
  <[k := {| value := v; isRevealed := isRevealed (default zeroDecrypted (m !! k)) |}]> m.
Definition write_isRevealed (m : gmap N DecryptedDataPoint) (k : N) (b : bool)
    : gmap N DecryptedDataPoint :=
  <[k := {| value := value (default zeroDecrypted (m !! k)); isRevealed := b |}]> m.

(** [decryptDataPoint(requestId, cleartexts, proof)], the oracle's callback. *)
Definition decryptDataPoint (s : State) (requestId : N)
    (cleartexts proof : list byte) : result State :=
  let dataId := requestToDataId_at s requestId in
  if dataId =? 0 then Revert Invalid_request
  else if negb (checkSignatures requestId cleartexts proof)
  then Revert Invalid_signatures
  else
    match abi_decode_uint32 cleartexts with
    | None => Revert Abi_decode_failed
    | Some v =>
        Ok {| dataCount := dataCount s;
              encryptedData := encryptedData s;
              decryptedData :=
                write_isRevealed (write_value (decryptedData s) dataId v) dataId true;
              requestToDataId := requestToDataId s;
              events := events s ++ [DataDecrypted dataId];
              oracleRequests := oracleRequests s |}
    end.

(** [getDecryptedData(dataId)], a view. *)
Definition getDecryptedData (s : State) (dataId : N) : N * bool :=
  let dp := decryptedData_at s dataId in
  (value dp, isRevealed dp).

(** ** Transactions *)

(** A call from outside, with what the environment supplies to it. *)
Inductive Call :=
| CallSubmit (encryptedValue0 : euint32) (block_timestamp : N)
| CallRequest (dataId reqId : N)
| CallCallback (requestId : N) (cleartexts proof : list byte).

Definition exec (s : State) (c : Call) : result State :=
  match c with
  | CallSubmit e t => submitEncryptedData s e t
  | CallRequest d r => requestDataDecryption s d r
  | CallCallback r c p => decryptDataPoint s r c p
  end.

(** A reverted transaction rolls every change back. *)
Definition commit (s : State) (r : result State) : State :=
  match r with
  | Ok s' => s'
  | Revert _ => s
  end.

Definition transact (s : State) (c : Call) : State := commit s (exec s c).

Definition run (s : State) (cs : list Call) : State := foldl transact s cs.

Definition reachable (s : State) : Prop := exists cs, s = run deployed cs.

(** ** Basic facts *)

(** The callback leaves one record behind, whatever stood there before. *)
Lemma write_both (m : gmap N DecryptedDataPoint) (k v : N) :
  write_isRevealed (write_value m k v) k true
  = <[k := {| value := v; isRevealed := true |}]> m.
Proof.
  unfold write_isRevealed, write_value.
  rewrite lookup_insert_eq. simpl. apply insert_insert_eq.
Qed.

Lemma transact_Ok s c s' : exec s c = Ok s' -> transact s c = s'.
Proof. unfold transact. by intros ->. Qed.

Lemma transact_Revert s c e : exec s c = Revert e -> transact s c = s.
Proof. unfold transact. by intros ->. Qed.

Lemma run_snoc s cs c : run s (cs ++ [c]) = transact (run s cs) c.
Proof. unfold run. apply foldl_snoc. Qed.

Lemma run_app s cs1 cs2 : run s (cs1 ++ cs2) = run (run s cs1) cs2.
Proof. unfold run. apply foldl_app. Qed.

Lemma reachable_deployed : reachable deployed.
Proof. by exists []. Qed.

Lemma reachable_transact s c : reachable s -> reachable (transact s c).
Proof. intros [cs ->]. exists (cs ++ [c]). by rewrite run_snoc. Qed.

Lemma reachable_run s cs : reachable s -> reachable (run s cs).
Proof. intros [cs0 ->]. exists (cs0 ++ cs). by rewrite run_app. Qed.

(** Induction over the transactions that led to a state. *)
Lemma reachable_ind (P : State -> Prop) :
  P deployed ->
  (forall s c, reachable s -> P s -> P (transact s c)) ->
  forall s, reachable s -> P s.
Proof.
  intros H0 Hstep s [cs ->].
  induction cs as [|c cs IH] using rev_ind; [exact H0|].
  rewrite run_snoc. apply Hstep; [by exists cs | exact IH].
Qed.

(** What an accepted callback is: the three checks passed, and the state is
    the old one with the target's record replaced and one event more. *)
Lemma decryptDataPoint_Ok s requestId cleartexts proof s' :
  decryptDataPoint s requestId cleartexts proof = Ok s' <->
  requestToDataId_at s requestId <> 0 /\
  checkSignatures requestId cleartexts proof = true /\
  exists v, abi_decode_uint32 cleartexts = Some v /\
    s' = {| dataCount := dataCount s;
            encryptedData := encryptedData s;
            decryptedData :=
              <[requestToDataId_at s requestId := {| value := v; isRevealed := true |}]>
                (decryptedData s);
            requestToDataId := requestToDataId s;
            events := events s ++ [DataDecrypted (requestToDataId_at s requestId)];
            oracleRequests := oracleRequests s |}.
Proof.
  unfold decryptDataPoint.
  destruct (N.eqb_spec (requestToDataId_at s requestId) 0) as [E|E].
  { split; [discriminate|]. intros [? _]. done. }
  destruct (checkSignatures requestId cleartexts proof); simpl.
  2:{ split; [discriminate|]. intros (_ & ? & _). done. }
  destruct (abi_decode_uint32 cleartexts) as [v|].
  2:{ split; [discriminate|]. intros (_ & _ & v & ? & _). done. }
  rewrite write_both. split.
  - intros [= <-]. eauto.
  - intros (_ & _ & v' & [= <-] & ->). done.
Qed.

(** ** What each function does when it returns *)

Lemma submittedIds_snoc log e :
  submittedIds (log ++ [e]) =
  submittedIds log ++ match e with DataSubmitted i _ => [i] | _ => [] end.
Proof. unfold submittedIds. rewrite omap_app. by destruct e. Qed.

(** What a successful [submitEncryptedData] does: the id it assigns is the
    incremented counter, carried by the event and used as the storage key. *)
Lemma submitEncryptedData_Ok s e t s' :
  submitEncryptedData s e t = Ok s' ->
  dataCount s < uint256_max /\
  dataCount s' = dataCount s + 1 /\
  events s' = events s ++ [DataSubmitted (dataCount s + 1) t] /\
  encryptedData s' =
    <[dataCount s + 1 := {| edp_id := dataCount s + 1; encryptedValue := e;
                            timestamp := t |}]> (encryptedData s) /\
  decryptedData s' = <[dataCount s + 1 := zeroDecrypted]> (decryptedData s) /\
  requestToDataId s' = requestToDataId s /\
  oracleRequests s' = oracleRequests s.
Proof.
  unfold submitEncryptedData.
  destruct (N.leb_spec uint256_max (dataCount s)); [discriminate|].
  intros [= <-]. simpl. auto 10.
Qed.

Lemma submitEncryptedData_succeeds s e t :
  dataCount s < uint256_max -> exists s', submitEncryptedData s e t = Ok s'.
Proof.
  intros Hroom. unfold submitEncryptedData.
  destruct (N.leb_spec uint256_max (dataCount s)); [lia|eauto].
Qed.

(** The library call on one handle returns exactly when the handle is not
    the zero handle, the contract is allowed on it, and no handles were
    saved under the request id before. *)
Lemma FHE_requestDecryption_Ok s h reqId r :
  FHE_requestDecryption s [h] reqId = Ok r <->
  h <> 0 /\ senderAllowed h = true /\ (reqId ∉ (oracleRequests s).*1) /\ r = reqId.
Proof.
  unfold FHE_requestDecryption. simpl. rewrite andb_true_r.
  destruct (N.eqb_spec h 0) as [->|Hnz]; simpl.
  { split; [discriminate|]. by intros [? _]. }
  destruct (senderAllowed h); simpl.
  2:{ split; [discriminate|]. by intros (_ & ? & _). }
  case_bool_decide as Hin.
  - split; [discriminate|]. by intros (_ & _ & ? & _).
  - split; [intros [= <-]; auto|]. by intros (_ & _ & _ & ->).
Qed.

Lemma requestDataDecryption_Ok s dataId reqId :
  isRevealed (decryptedData_at s dataId) = false ->
  encryptedValue (encryptedData_at s dataId) <> 0 ->
  senderAllowed (encryptedValue (encryptedData_at s dataId)) = true ->
  reqId ∉ (oracleRequests s).*1 ->
  requestDataDecryption s dataId reqId =
  Ok {| dataCount := dataCount s;
        encryptedData := encryptedData s;
        decryptedData := decryptedData s;
        requestToDataId := <[reqId := dataId]> (requestToDataId s);
        events := events s ++ [DecryptionRequested dataId];
        oracleRequests :=
          oracleRequests s ++ [(reqId, [encryptedValue (encryptedData_at s dataId)])] |}.
Proof.
  intros Hhidden Hnz Hallowed Hfresh. unfold requestDataDecryption, toBytes32.
  rewrite Hhidden.
  by rewrite (proj2 (FHE_requestDecryption_Ok s _ reqId reqId)) by auto.
Qed.

Lemma requestDataDecryption_Ok_inv s dataId reqId s' :
  requestDataDecryption s dataId reqId = Ok s' ->
  isRevealed (decryptedData_at s dataId) = false /\
  encryptedValue (encryptedData_at s dataId) <> 0 /\
  senderAllowed (encryptedValue (encryptedData_at s dataId)) = true /\
  (reqId ∉ (oracleRequests s).*1) /\
  dataCount s' = dataCount s /\
  encryptedData s' = encryptedData s /\
  decryptedData s' = decryptedData s /\
  requestToDataId s' = <[reqId := dataId]> (requestToDataId s) /\
  events s' = events s ++ [DecryptionRequested dataId] /\
  oracleRequests s' =
    oracleRequests s ++ [(reqId, [encryptedValue (encryptedData_at s dataId)])].
Proof.
  unfold requestDataDecryption, toBytes32.
  destruct (isRevealed (decryptedData_at s dataId)); [discriminate|].
  destruct (FHE_requestDecryption s _ reqId) as [r|err] eqn:E; [|discriminate].
  apply FHE_requestDecryption_Ok in E as (? & ? & ? & ->).
  intros [= <-]. simpl. auto 12.
Qed.

(** A request on the zero handle passes the contract's own check and
    reverts in the library. *)
Lemma requestDataDecryption_zero_handle s dataId reqId :
  isRevealed (decryptedData_at s dataId) = false ->
  encryptedValue (encryptedData_at s dataId) = 0 ->
  requestDataDecryption s dataId reqId = Revert Sender_not_allowed.
Proof.
  intros Hhidden Hzero. unfold requestDataDecryption, toBytes32.
  by rewrite Hhidden, Hzero.
Qed.

Lemma decryptDataPoint_Ok_inv s requestId cleartexts proof s' :
  decryptDataPoint s requestId cleartexts proof = Ok s' ->
  requestToDataId_at s requestId <> 0 /\
  checkSignatures requestId cleartexts proof = true /\
  exists v, abi_decode_uint32 cleartexts = Some v /\
    dataCount s' = dataCount s /\
    encryptedData s' = encryptedData s /\
    decryptedData s' =
      <[requestToDataId_at s requestId := {| value := v; isRevealed := true |}]>
        (decryptedData s) /\
    requestToDataId s' = requestToDataId s /\
    events s' = events s ++ [DataDecrypted (requestToDataId_at s requestId)] /\
    oracleRequests s' = oracleRequests s.
Proof.
  intros (Hvalid & Hsig & v & Hdec & ->)%decryptDataPoint_Ok.
  split; [done|]. split; [done|]. exists v. simpl. auto 10.
Qed.

Lemma decryptDataPoint_accepts s requestId cleartexts proof v :
  requestToDataId_at s requestId <> 0 ->
  checkSignatures requestId cleartexts proof = true ->
  abi_decode_uint32 cleartexts = Some v ->
  exists s', decryptDataPoint s requestId cleartexts proof = Ok s'.
Proof. intros ? ? ?. eexists. apply decryptDataPoint_Ok. eauto 10. Qed.

(** A transaction is a revert, which changes nothing, or one of the three
    functions returning. *)
Lemma transact_inv s c :
  transact s c = s \/
  (exists e t, c = CallSubmit e t /\
     submitEncryptedData s e t = Ok (transact s c)) \/
  (exists d r, c = CallRequest d r /\
     requestDataDecryption s d r = Ok (transact s c)) \/
  (exists r cl p, c = CallCallback r cl p /\
     decryptDataPoint s r cl p = Ok (transact s c)).
Proof.
  unfold transact, exec. destruct c as [e t|d r|r cl p]; simpl.
  - destruct (submitEncryptedData s e t) eqn:E; simpl; [|by left].
    right; left. by exists e, t.
  - destruct (requestDataDecryption s d r) eqn:E; simpl; [|by left].
    right; right; left. by exists d, r.
  - destruct (decryptDataPoint s r cl p) eqn:E; simpl; [|by left].
    right; right; right. by exists r, cl, p.
Qed.

(** Case analysis on a transaction, with what each function wrote. *)
Ltac transact_cases s c :=
  let e := fresh "e" in let t := fresh "t" in
  let d := fresh "d" in let r := fresh "r" in
  let cl := fresh "cl" in let p := fresh "p" in
  let v := fresh "v" in
  destruct (transact_inv s c)
    as [Hsame
       |[(e & t & -> & (Hroom & Hcount & Hevents & Henc & Hdec & Hreq & Horacle)
                         %submitEncryptedData_Ok)
       |[(d & r & -> &
            (Hhidden & Hhandle & Hallowed & Hfresh & Hcount & Henc & Hdec & Hreq
               & Hevents & Horacle)%requestDataDecryption_Ok_inv)
        |(r & cl & p & -> &
            (Hvalid & Hsig & v & Hdecode & Hcount & Henc & Hdec & Hreq & Hevents & Horacle)
              %decryptDataPoint_Ok_inv)]]].

Lemma events_transact s c e : e ∈ events s -> e ∈ events (transact s c).
Proof.
  intros He. transact_cases s c; [by rewrite Hsame|..];
    rewrite Hevents, elem_of_app; by left.
Qed.

Lemma events_run cs : forall s e, e ∈ events s -> e ∈ events (run s cs).
Proof.
  induction cs as [|c cs IH]; intros s e He; [done|].
  change (run s (c :: cs)) with (run (transact s c) cs).
  by apply IH, events_transact.
Qed.

Lemma decryptedData_at_insert s s' k dp i :
  decryptedData s' = <[k := dp]> (decryptedData s) ->
  decryptedData_at s' i = if decide (i = k) then dp else decryptedData_at s i.
Proof.
  unfold decryptedData_at. intros ->. case_decide as E.
  - subst. by rewrite lookup_insert_eq.
  - by rewrite lookup_insert_ne.
Qed.

Lemma decryptedData_at_same s s' i :
  decryptedData s' = decryptedData s -> decryptedData_at s' i = decryptedData_at s i.
Proof. unfold decryptedData_at. by intros ->. Qed.

Lemma encryptedData_at_same s s' i :
  encryptedData s' = encryptedData s -> encryptedData_at s' i = encryptedData_at s i.
Proof. unfold encryptedData_at. by intros ->. Qed.

Lemma requestToDataId_at_same s s' r :
  requestToDataId s' = requestToDataId s -> requestToDataId_at s' r = requestToDataId_at s r.
Proof. unfold requestToDataId_at. by intros ->. Qed.

Lemma requestToDataId_at_insert s s' reqId dataId r :
  requestToDataId s' = <[reqId := dataId]> (requestToDataId s) ->
  requestToDataId_at s' r =
  if decide (r = reqId) then dataId else requestToDataId_at s r.
Proof.
  unfold requestToDataId_at. intros ->. case_decide as E.
  - subst. by rewrite lookup_insert_eq.
  - by rewrite lookup_insert_ne.
Qed.

Lemma requestToDataId_at_Some s r i :
  requestToDataId_at s r = i -> i <> 0 -> requestToDataId s !! r = Some i.
Proof.
  unfold requestToDataId_at. destruct (requestToDataId s !! r); simpl; congruence.
Qed.

Lemma getDecryptedData_insert (m : gmap N DecryptedDataPoint) k v b s' :
  decryptedData s' = <[k := {| value := v; isRevealed := b |}]> m ->
  getDecryptedData s' k = (v, b).
Proof.
  unfold getDecryptedData, decryptedData_at. intros ->.
  by rewrite lookup_insert_eq.
Qed.

(** The decoder returns the big-endian reading of the first 32 bytes, and
    only when that fits 32 bits. *)
Lemma abi_decode_uint32_Some data v :
  abi_decode_uint32 data = Some v <->
  (32 <= length data)%nat /\ v = be_to_N (take 32 data) /\ v <= uint32_max.
Proof.
  unfold abi_decode_uint32.
  destruct (Nat.ltb_spec (length data) 32).
  { split; [discriminate|]. intros [? _]. lia. }
  destruct (N.leb_spec (be_to_N (take 32 data)) uint32_max).
  - split; [intros [= <-]; auto|]. by intros (_ & -> & _).
  - split; [discriminate|]. intros (_ & -> & ?). lia.
Qed.

(** ** Rejected calls *)

Lemma requestToDataId_at_None s requestId :
  requestToDataId s !! requestId = None -> requestToDataId_at s requestId = 0.
Proof. unfold requestToDataId_at. by intros ->. Qed.

Lemma decryptDataPoint_zero_target s requestId cleartexts proof :
  requestToDataId_at s requestId = 0 ->
  decryptDataPoint s requestId cleartexts proof = Revert Invalid_request.
Proof. unfold decryptDataPoint. by intros ->. Qed.

(** C7.  A callback whose [requestId] has no recorded request-to-target
    mapping reverts with "Invalid request" (the specification's
    [UnknownRequest]), whatever its payload and proof, and the transaction
    leaves the whole state (storage, event log, oracle requests) as it was. *)
Theorem decryptDataPoint_unknown_request s requestId cleartexts proof :
  requestToDataId s !! requestId = None ->
  decryptDataPoint s requestId cleartexts proof = Revert Invalid_request /\
  transact s (CallCallback requestId cleartexts proof) = s.
Proof.
  intros Hnone%requestToDataId_at_None.
  pose proof (decryptDataPoint_zero_target s requestId cleartexts proof Hnone) as Hrev.
  split; [exact Hrev|]. by apply (transact_Revert _ _ Invalid_request).
Qed.

(** C8.  For a [requestId] that maps to a target, a callback whose
    (requestId, cleartexts, proof) triple the signature check rejects
    reverts in [FHE.checkSignatures] (the specification's
    [VerificationFailed]); the state is as before the call, so a target
    that was [RequestPending] still is, and what [getDecryptedData] returns
    for every id is unchanged: no clear value was set. *)
Theorem decryptDataPoint_verification_failed s requestId cleartexts proof :
  requestToDataId_at s requestId <> 0 ->
  checkSignatures requestId cleartexts proof = false ->
  decryptDataPoint s requestId cleartexts proof = Revert Invalid_signatures /\
  transact s (CallCallback requestId cleartexts proof) = s /\
  (revealState s (requestToDataId_at s requestId) = RequestPending ->
   revealState (transact s (CallCallback requestId cleartexts proof))
     (requestToDataId_at s requestId) = RequestPending) /\
  (forall dataId,
     getDecryptedData (transact s (CallCallback requestId cleartexts proof)) dataId
     = getDecryptedData s dataId).
Proof.
  intros Hvalid Hrej.
  assert (decryptDataPoint s requestId cleartexts proof = Revert Invalid_signatures) as Hrev.
  { unfold decryptDataPoint. apply N.eqb_neq in Hvalid. by rewrite Hvalid, Hrej. }
  assert (transact s (CallCallback requestId cleartexts proof) = s) as ->
    by by apply (transact_Revert _ _ Invalid_signatures).
  auto.
Qed.

(** C5.  For a target that is [Revealed], [requestDataDecryption] reverts
    with "Already decrypted" (the specification's [AlreadyRevealed]),
    whatever request id the oracle would have answered, and the transaction
    leaves the whole state as it was. *)
Theorem requestDataDecryption_already_revealed s dataId reqId :
  revealState s dataId = Revealed ->
  requestDataDecryption s dataId reqId = Revert Already_decrypted /\
  transact s (CallRequest dataId reqId) = s.
Proof.
  intros Hrev%revealState_Revealed.
  assert (requestDataDecryption s dataId reqId = Revert Already_decrypted) as E.
  { unfold requestDataDecryption. by rewrite Hrev. }
  split; [exact E|]. by apply (transact_Revert _ _ Already_decrypted).
Qed.

(** ** Identifiers *)

(** No call lowers the counter, and none touches the encrypted record of an
    id at or below it. *)
Lemma transact_dataCount_mono s c : dataCount s <= dataCount (transact s c).
Proof. transact_cases s c; [rewrite Hsame|rewrite Hcount..]; lia. Qed.

Lemma transact_encryptedData_frame s c i :
  i <= dataCount s ->
  encryptedData (transact s c) !! i = encryptedData s !! i.
Proof.
  intros Hi. transact_cases s c; [by rewrite Hsame|..]; rewrite Henc; [|done..].
  apply lookup_insert_ne. lia.
Qed.

Lemma run_encryptedData_frame cs : forall s i,
  i <= dataCount s ->
  encryptedData (run s cs) !! i = encryptedData s !! i.
Proof.
  induction cs as [|c cs IH]; intros s i Hi; [done|].
  change (run s (c :: cs)) with (run (transact s c) cs).
  rewrite IH by (pose proof (transact_dataCount_mono s c); lia).
  by apply transact_encryptedData_frame.
Qed.

(** The invariant behind the identifiers: the assigned ids are exactly
    1 .. [dataCount], they were assigned in increasing order, and the
    encrypted records are exactly theirs. *)
Record ids_inv (s : State) : Prop := {
  ids_sorted : StronglySorted N.lt (submittedIds (events s));
  ids_range : forall i, i ∈ submittedIds (events s) <-> 1 <= i <= dataCount s;
  ids_stored : forall i, is_Some (encryptedData s !! i) <-> 1 <= i <= dataCount s
}.

Lemma ids_inv_deployed : ids_inv deployed.
Proof.
  split; simpl.
  - constructor.
  - intros i. rewrite elem_of_nil. lia.
  - intros i. rewrite lookup_empty, is_Some_alt. lia.
Qed.

Lemma ids_inv_transact s c : ids_inv s -> ids_inv (transact s c).
Proof.
  intros [Hsorted Hrange Hstored].
  transact_cases s c; [by rewrite Hsame|..]; split.
  - rewrite Hevents, submittedIds_snoc. apply StronglySorted_app_2.
    + intros x1 x2 Hx1%Hrange ->%list_elem_of_singleton. lia.
    + exact Hsorted.
    + repeat constructor.
  - intros i. rewrite Hevents, submittedIds_snoc, elem_of_app, Hrange, Hcount,
      list_elem_of_singleton. lia.
  - intros i. rewrite Henc, Hcount.
    destruct (decide (i = dataCount s + 1)) as [->|Hne].
    + rewrite lookup_insert_eq. split; [lia|eauto].
    + rewrite lookup_insert_ne, Hstored by done. lia.
  - by rewrite Hevents, submittedIds_snoc, app_nil_r.
  - intros i. by rewrite Hevents, submittedIds_snoc, app_nil_r, Hcount.
  - intros i. by rewrite Henc, Hcount.
  - by rewrite Hevents, submittedIds_snoc, app_nil_r.
  - intros i. by rewrite Hevents, submittedIds_snoc, app_nil_r, Hcount.
  - intros i. by rewrite Henc, Hcount.
Qed.

Lemma reachable_ids_inv s : reachable s -> ids_inv s.
Proof.
  apply reachable_ind; [apply ids_inv_deployed|].
  intros ? ? _. apply ids_inv_transact.
Qed.

Lemma StronglySorted_lt_NoDup (l : list N) : StronglySorted N.lt l -> NoDup l.
Proof.
  induction 1 as [|x l _ IH Hall]; constructor; [|exact IH].
  intros Hx. rewrite Forall_forall in Hall. specialize (Hall x Hx). lia.
Qed.

(** C6.  After any sequence of calls to a freshly deployed contract, the
    ids [submitEncryptedData] has assigned, in the order of assignment, are
    strictly increasing, hence pairwise different; and whatever calls
    follow, an assigned id keeps the encrypted data point it was given. *)
Theorem submitted_ids_strictly_increasing cs :
  StronglySorted N.lt (submittedIds (events (run deployed cs))) /\
  NoDup (submittedIds (events (run deployed cs))) /\
  (forall i cs',
     i ∈ submittedIds (events (run deployed cs)) ->
     is_Some (encryptedData (run deployed cs) !! i) /\
     encryptedData (run (run deployed cs) cs') !! i
     = encryptedData (run deployed cs) !! i).
Proof.
  assert (ids_inv (run deployed cs)) as [Hsorted Hrange Hstored]
    by (apply reachable_ids_inv; by exists cs).
  split; [exact Hsorted|]. split; [by apply StronglySorted_lt_NoDup|].
  intros i cs' Hi%Hrange. split; [by apply Hstored|].
  apply run_encryptedData_frame. lia.
Qed.

Lemma unassigned_not_stored s dataId :
  reachable s -> unassigned s dataId -> encryptedData s !! dataId = None.
Proof.
  intros [_ _ Hstored]%reachable_ids_inv Hun.
  apply eq_None_not_Some. rewrite Hstored. unfold unassigned in Hun. lia.
Qed.

(** ** The request table *)

(** Every recorded request id was answered by the library for an assigned
    id with a non-zero handle the contract is allowed on, and handles were
    saved under it; decrypted records exist for assigned ids only. *)
Record requests_inv (s : State) : Prop := {
  req_assigned : forall r i,
    requestToDataId s !! r = Some i -> 1 <= i <= dataCount s;
  req_handle : forall r i,
    requestToDataId s !! r = Some i ->
    encryptedValue (encryptedData_at s i) <> 0 /\
    senderAllowed (encryptedValue (encryptedData_at s i)) = true;
  req_saved : forall r i,
    requestToDataId s !! r = Some i -> r ∈ (oracleRequests s).*1;
  rec_assigned : forall i,
    is_Some (decryptedData s !! i) -> 1 <= i <= dataCount s
}.

Lemma nonzero_handle_stored s i :
  encryptedValue (encryptedData_at s i) <> 0 -> is_Some (encryptedData s !! i).
Proof.
  unfold encryptedData_at. destruct (encryptedData s !! i); [eauto|done].
Qed.

Lemma encryptedData_at_frame s s' k dp i :
  encryptedData s' = <[k := dp]> (encryptedData s) -> i <> k ->
  encryptedData_at s' i = encryptedData_at s i.
Proof. unfold encryptedData_at. intros -> ?. by rewrite lookup_insert_ne. Qed.

Lemma requests_inv_transact s c :
  ids_inv s -> requests_inv s -> requests_inv (transact s c).
Proof.
  intros [_ _ Hstored] [Hassigned Hhandles Hsaved Hrec].
  transact_cases s c; [by rewrite Hsame|..]; split.
  - intros r i Hr. rewrite Hreq in Hr. rewrite Hcount.
    specialize (Hassigned r i Hr). lia.
  - intros r i Hr. rewrite Hreq in Hr.
    rewrite (encryptedData_at_frame s _ _ _ i Henc).
    + eauto.
    + specialize (Hassigned r i Hr). lia.
  - intros r i Hr. rewrite Hreq in Hr. rewrite Horacle. eauto.
  - intros i. rewrite Hdec, Hcount.
    destruct (decide (i = dataCount s + 1)) as [->|Hne]; [lia|].
    rewrite lookup_insert_ne by done. intros ?%Hrec. lia.
  - intros r0 i. rewrite Hreq, Hcount.
    destruct (decide (r0 = r)) as [->|Hne].
    + rewrite lookup_insert_eq. intros [= <-].
      by apply Hstored, nonzero_handle_stored.
    + rewrite lookup_insert_ne by done. apply Hassigned.
  - intros r0 i. rewrite Hreq, (encryptedData_at_same s _ i Henc).
    destruct (decide (r0 = r)) as [->|Hne].
    + rewrite lookup_insert_eq. by intros [= <-].
    + rewrite lookup_insert_ne by done. apply Hhandles.
  - intros r0 i. rewrite Hreq, Horacle, fmap_app, elem_of_app. simpl.
    destruct (decide (r0 = r)) as [->|Hne].
    + intros _. right. by apply list_elem_of_singleton.
    + rewrite lookup_insert_ne by done. intros ?%Hsaved. by left.
  - intros i. rewrite Hdec, Hcount. apply Hrec.
  - intros r0 i. rewrite Hreq, Hcount. apply Hassigned.
  - intros r0 i. rewrite Hreq, (encryptedData_at_same s _ i Henc). apply Hhandles.
  - intros r0 i. rewrite Hreq, Horacle. apply Hsaved.
  - intros i. rewrite Hdec, Hcount.
    destruct (decide (i = requestToDataId_at s r)) as [->|Hne].
    + intros _. eapply Hassigned, requestToDataId_at_Some; done.
    + rewrite lookup_insert_ne by done. apply Hrec.
Qed.

Lemma reachable_requests_inv s : reachable s -> requests_inv s.
Proof.
  revert s. apply reachable_ind.
  - split; simpl; intros *; rewrite lookup_empty; by intros; simplify_eq.
  - intros s c Hreach. by apply requests_inv_transact, reachable_ids_inv.
Qed.

(** A recorded entry is never overwritten: the library refuses a request id
    under which handles were saved. *)
Lemma request_entry_kept_transact s c r i :
  requests_inv s ->
  requestToDataId s !! r = Some i ->
  requestToDataId (transact s c) !! r = Some i.
Proof.
  intros [_ _ Hsaved _] Hr. transact_cases s c; [by rewrite Hsame|..];
    rewrite Hreq; [done| |done].
  rewrite lookup_insert_ne; [done|]. intros ->. by apply Hfresh, (Hsaved _ i).
Qed.

Lemma request_entry_kept s cs r i :
  reachable s ->
  requestToDataId s !! r = Some i ->
  requestToDataId (run s cs) !! r = Some i.
Proof.
  revert s. induction cs as [|c cs IH]; intros s Hreach Hr; [done|].
  change (run s (c :: cs)) with (run (transact s c) cs).
  apply IH; [by apply reachable_transact|].
  by apply request_entry_kept_transact; [apply reachable_requests_inv|].
Qed.

(** ** Requests and callbacks as the contract handles them *)

(** C2 (amended).  The contract has no pending check.  For a target that
    is [RequestPending], a further [requestDataDecryption] is not refused
    by the contract: whenever the library call returns (the stored handle
    is not the zero handle, the contract is allowed on it, and the request
    id the library picks was not used before), the call succeeds.  It
    records the request id as one more mapping to the target, hands the
    target's stored handle to the oracle again and emits
    [DecryptionRequested]; every request id that mapped to the target
    before still does, and the target is still [RequestPending]. *)
Theorem requestDataDecryption_while_pending s dataId reqId :
  revealState s dataId = RequestPending ->
  encryptedValue (encryptedData_at s dataId) <> 0 ->
  senderAllowed (encryptedValue (encryptedData_at s dataId)) = true ->
  reqId ∉ (oracleRequests s).*1 ->
  exists s',
    requestDataDecryption s dataId reqId = Ok s' /\
    requestToDataId_at s' reqId = dataId /\
    (forall r, requestToDataId_at s r = dataId -> requestToDataId_at s' r = dataId) /\
    (forall r, r <> reqId -> requestToDataId_at s' r = requestToDataId_at s r) /\
    events s' = events s ++ [DecryptionRequested dataId] /\
    oracleRequests s' =
      oracleRequests s ++ [(reqId, [encryptedValue (encryptedData_at s dataId)])] /\
    revealState s' dataId = RequestPending.
Proof.
  intros [Hhidden Hreq]%revealState_RequestPending Hnz Hallowed Hfresh.
  eexists. split; [by apply requestDataDecryption_Ok|].
  set (s' := {| dataCount := dataCount s |}).
  assert (forall r, requestToDataId_at s' r =
            if decide (r = reqId) then dataId else requestToDataId_at s r) as Hat
    by (intros r; by apply requestToDataId_at_insert).
  split; [rewrite Hat; by case_decide|].
  split; [intros r Hr; rewrite Hat; by case_decide|].
  split; [intros r Hr; rewrite Hat; by case_decide|].
  split; [done|]. split; [done|].
  apply revealState_RequestPending. split; [exact Hhidden|].
  apply hasRequest_at. split; [apply Hreq|].
  exists reqId. rewrite Hat. by case_decide.
Qed.

(** C1 (amended).  An accepted callback does not consume its request id:
    the request-to-target mapping is as it was.  A second delivery of the
    same (requestId, cleartexts, proof) is accepted again, not rejected
    with "Invalid request": it writes the same record once more and emits a
    second [DataDecrypted].  A delivery for that request id whose signature
    check and decoding pass is accepted as well and sets the target's clear
    value to its own decoded payload; and on the deployed contract this
    stays so after any further sequence of calls, through which the
    request id keeps mapping to the same target: no call removes or
    overwrites the entry. *)
Theorem decryptDataPoint_redelivery s requestId cleartexts proof s' :
  decryptDataPoint s requestId cleartexts proof = Ok s' ->
  requestToDataId s' = requestToDataId s /\
  (exists s'',
     decryptDataPoint s' requestId cleartexts proof = Ok s'' /\
     decryptedData s'' = decryptedData s' /\
     events s'' = events s' ++ [DataDecrypted (requestToDataId_at s requestId)]) /\
  (forall cleartexts' proof' v,
     checkSignatures requestId cleartexts' proof' = true ->
     abi_decode_uint32 cleartexts' = Some v ->
     exists s'',
       decryptDataPoint s' requestId cleartexts' proof' = Ok s'' /\
       getDecryptedData s'' (requestToDataId_at s requestId) = (v, true)) /\
  (reachable s ->
   forall cs,
     requestToDataId_at (run s' cs) requestId = requestToDataId_at s requestId /\
     (forall cleartexts' proof' v,
        checkSignatures requestId cleartexts' proof' = true ->
        abi_decode_uint32 cleartexts' = Some v ->
        exists s'',
          decryptDataPoint (run s' cs) requestId cleartexts' proof' = Ok s'' /\
          getDecryptedData s'' (requestToDataId_at s requestId) = (v, true))).
Proof.
  intros E. pose proof E as (Hvalid & Hsig & v & Hdec & ->)%decryptDataPoint_Ok.
  set (s1 := {| dataCount := dataCount s |}) in *.
  assert (forall s2 cl p w,
            requestToDataId_at s2 requestId = requestToDataId_at s requestId ->
            checkSignatures requestId cl p = true ->
            abi_decode_uint32 cl = Some w ->
            exists s'',
              decryptDataPoint s2 requestId cl p = Ok s'' /\
              getDecryptedData s'' (requestToDataId_at s requestId) = (w, true))
    as Haccept.
  { intros s2 cl p w Hsame Hs Hd.
    destruct (decryptDataPoint_accepts s2 requestId cl p w) as [s'' E''];
      [by rewrite Hsame|done|done|].
    exists s''. split; [done|].
    apply decryptDataPoint_Ok_inv in E'' as (_ & _ & w' & Hw' & _ & _ & Hdec'' & _).
    rewrite Hd in Hw'. injection Hw' as <-. rewrite Hsame in Hdec''.
    by eapply getDecryptedData_insert. }
  split; [done|]. split.
  { eexists. split; [apply decryptDataPoint_Ok; eauto 10|].
    simpl. split; [apply insert_insert_eq|done]. }
  split; [intros cl p w; by apply Haccept|].
  intros Hreach cs.
  assert (requestToDataId_at (run s1 cs) requestId = requestToDataId_at s requestId)
    as Hkept.
  { pose proof (requestToDataId_at_Some s requestId _ eq_refl Hvalid) as Hentry.
    unfold requestToDataId_at at 1.
    rewrite (request_entry_kept s1 cs requestId (requestToDataId_at s requestId)); [done| |done].
    rewrite <-(transact_Ok s (CallCallback requestId cleartexts proof) s1 E).
    by apply reachable_transact. }
  split; [exact Hkept|]. intros cl p w. by apply Haccept.
Qed.

(** C3 (amended).  A call changes what [getDecryptedData] returns for a
    target only if it is an accepted callback whose request id maps to that
    target, which leaves the decoded payload there, or a
    [submitEncryptedData] that assigns the target's id and initialises its
    record to (0, false).  The write is not once-only: every accepted
    callback stores its decoded payload in the record of the target its
    request id maps to, whatever that record held before. *)
Theorem clearValue_writers s c dataId :
  (getDecryptedData (transact s c) dataId <> getDecryptedData s dataId ->
   (exists requestId cleartexts proof v,
      c = CallCallback requestId cleartexts proof /\
      requestToDataId_at s requestId = dataId /\
      checkSignatures requestId cleartexts proof = true /\
      abi_decode_uint32 cleartexts = Some v /\
      getDecryptedData (transact s c) dataId = (v, true)) \/
   (exists e t,
      c = CallSubmit e t /\ dataId = dataCount s + 1 /\
      getDecryptedData (transact s c) dataId = (0, false))) /\
  (forall requestId cleartexts proof s',
     c = CallCallback requestId cleartexts proof ->
     decryptDataPoint s requestId cleartexts proof = Ok s' ->
     exists v,
       abi_decode_uint32 cleartexts = Some v /\
       getDecryptedData (transact s c) (requestToDataId_at s requestId) = (v, true)).
Proof.
  split.
  - intros Hchg. transact_cases s c.
    + exfalso. apply Hchg. by rewrite Hsame.
    + right. exists e, t. split; [done|].
      destruct (decide (dataId = dataCount s + 1)) as [->|Hne].
      * split; [done|]. by eapply getDecryptedData_insert.
      * exfalso. apply Hchg. unfold getDecryptedData.
        rewrite (decryptedData_at_insert s _ _ _ dataId Hdec). by case_decide.
    + exfalso. apply Hchg. unfold getDecryptedData.
      by rewrite (decryptedData_at_same s _ dataId Hdec).
    + left. exists r, cl, p, v. split; [done|].
      destruct (decide (requestToDataId_at s r = dataId)) as [<-|Hne].
      * repeat (split; [done|]). by eapply getDecryptedData_insert.
      * exfalso. apply Hchg. unfold getDecryptedData.
        rewrite (decryptedData_at_insert s _ _ _ dataId Hdec). by case_decide.
  - intros r cl p s' -> E.
    rewrite (transact_Ok s (CallCallback r cl p) s' E).
    apply decryptDataPoint_Ok_inv in E as (_ & _ & v & Hdecode & _ & _ & Hdec & _).
    exists v. split; [done|]. by eapply getDecryptedData_insert.
Qed.

(** ** Ids that were never submitted *)

Lemma unassigned_no_record s dataId :
  reachable s -> unassigned s dataId -> decryptedData s !! dataId = None.
Proof.
  intros [_ _ _ Hrec]%reachable_requests_inv Hun.
  apply eq_None_not_Some. intros ?%Hrec. unfold unassigned in Hun. lia.
Qed.

(** C9 (amended).  For an id no [submitEncryptedData] has assigned,
    [requestDataDecryption] has no existence check to fail: the id's
    record is the default one and passes the not-revealed check, and the
    default, zero handle is what the call hands to
    [FHE.requestDecryption].  The library call reverts on it, so the
    transaction reverts: no request id is recorded, no
    [DecryptionRequested] is emitted, and the state is as before. *)
Theorem requestDataDecryption_unassigned s dataId reqId :
  reachable s ->
  unassigned s dataId ->
  decryptedData_at s dataId = zeroDecrypted /\
  encryptedData_at s dataId = zeroEncrypted /\
  requestDataDecryption s dataId reqId = Revert Sender_not_allowed /\
  transact s (CallRequest dataId reqId) = s.
Proof.
  intros Hreach Hun.
  assert (decryptedData_at s dataId = zeroDecrypted) as Hrec
    by (unfold decryptedData_at; by rewrite unassigned_no_record).
  assert (encryptedData_at s dataId = zeroEncrypted) as Henc
    by (unfold encryptedData_at; by rewrite unassigned_not_stored).
  assert (requestDataDecryption s dataId reqId = Revert Sender_not_allowed) as E
    by (apply requestDataDecryption_zero_handle; [by rewrite Hrec|by rewrite Henc]).
  split; [done|]. split; [done|]. split; [exact E|].
  by apply (transact_Revert _ _ Sender_not_allowed).
Qed.

(** A record that is not marked revealed holds value 0: only the callback
    writes a value, and it sets the flag with it. *)
Definition unrevealed_inv (s : State) : Prop :=
  forall i, isRevealed (decryptedData_at s i) = false -> value (decryptedData_at s i) = 0.

Lemma unrevealed_inv_transact s c : unrevealed_inv s -> unrevealed_inv (transact s c).
Proof.
  intros Hinv i. transact_cases s c; [rewrite Hsame; apply Hinv|..].
  - rewrite (decryptedData_at_insert s _ _ _ i Hdec). case_decide; [done|apply Hinv].
  - rewrite (decryptedData_at_same s _ i Hdec). apply Hinv.
  - rewrite (decryptedData_at_insert s _ _ _ i Hdec). case_decide; [done|apply Hinv].
Qed.

Lemma reachable_unrevealed_inv s : reachable s -> unrevealed_inv s.
Proof.
  apply reachable_ind; [by intros i|].
  intros ? ? _. apply unrevealed_inv_transact.
Qed.

(** C10.  For an id no [submitEncryptedData] has assigned,
    [getDecryptedData] succeeds and returns value 0 and [isRevealed] false.
    That is also what it returns for every assigned id whose record is not
    marked revealed, so the two cannot be told apart through this view. *)
Theorem getDecryptedData_unassigned s dataId :
  reachable s ->
  unassigned s dataId ->
  getDecryptedData s dataId = (0, false) /\
  (forall i,
     1 <= i <= dataCount s ->
     isRevealed (decryptedData_at s i) = false ->
     getDecryptedData s i = (0, false)).
Proof.
  intros Hreach Hun. split.
  - unfold getDecryptedData, decryptedData_at.
    by rewrite (unassigned_no_record s dataId Hreach Hun).
  - intros i _ Hhidden. unfold getDecryptedData.
    by rewrite Hhidden, (reachable_unrevealed_inv s Hreach i Hhidden).
Qed.

(** ** Further properties of the contract *)

(** *** The counter and the stored data points *)

(** The ids 1, 2, ..., [n] in increasing order. *)
Definition idsUpTo (n : N) : list N := N.of_nat <$> seq 1 (N.to_nat n).

(** X1.  In every state the contract can reach, the ids assigned so far are
    exactly 1, 2, ..., [dataCount], in that order and without gaps, so
    [dataCount] is the number of accepted submissions; and the counter
    never exceeds 2^256 - 1. *)
Theorem submitted_ids_consecutive s :
  reachable s ->
  submittedIds (events s) = idsUpTo (dataCount s) /\
  dataCount s <= uint256_max.
Proof.
  revert s. apply reachable_ind; [split; [done|by vm_compute]|].
  intros s c _ [IHids IHmax]. transact_cases s c; [by rewrite Hsame|..];
    rewrite Hevents, submittedIds_snoc, Hcount, IHids.
  - split; [|lia]. unfold idsUpTo.
    replace (N.to_nat (dataCount s + 1)) with (S (N.to_nat (dataCount s))) by lia.
    rewrite seq_S, fmap_app. simpl. do 2 f_equal. lia.
  - by rewrite app_nil_r.
  - by rewrite app_nil_r.
Qed.

(** Every stored data point carries its own key as id, and was announced
    by a [DataSubmitted] event with its timestamp. *)
Definition stored_inv (s : State) : Prop :=
  forall i dp, encryptedData s !! i = Some dp ->
    edp_id dp = i /\ DataSubmitted i (timestamp dp) ∈ events s.

Lemma reachable_stored_inv s : reachable s -> stored_inv s.
Proof.
  revert s. apply reachable_ind; [intros i dp; simpl; by rewrite lookup_empty|].
  intros s c _ IH i dp. transact_cases s c; [rewrite Hsame; apply IH|..];
    rewrite Henc, Hevents, elem_of_app.
  - destruct (decide (i = dataCount s + 1)) as [->|Hne].
    + rewrite lookup_insert_eq. intros [= <-]. simpl. split; [done|].
      right. apply list_elem_of_singleton. done.
    + rewrite lookup_insert_ne by done. intros [? ?]%IH. auto.
  - intros [? ?]%IH. auto.
  - intros [? ?]%IH. auto.
Qed.

(** X2.  In every reachable state the public getter [encryptedData(i)]
    tells assigned ids from the others: for an assigned id the struct it
    returns has [id = i] and the timestamp of the [DataSubmitted(i, _)]
    event in the log; for an id that was never assigned it returns the
    all-zero struct. *)
Theorem encryptedData_getter s i :
  reachable s ->
  (1 <= i <= dataCount s ->
   edp_id (encryptedData_at s i) = i /\
   DataSubmitted i (timestamp (encryptedData_at s i)) ∈ events s) /\
  (unassigned s i -> encryptedData_at s i = zeroEncrypted).
Proof.
  intros Hreach. split.
  - intros Hi.
    destruct (reachable_ids_inv s Hreach) as [_ _ Hstored].
    destruct (proj2 (Hstored i) Hi) as [dp Hdp].
    unfold encryptedData_at. rewrite Hdp. simpl.
    by apply (reachable_stored_inv s Hreach).
  - intros Hun. unfold encryptedData_at.
    by rewrite (unassigned_not_stored s i Hreach Hun).
Qed.

(** *** Revealed records *)

Lemma isRevealed_assigned_transact s c i :
  i <= dataCount s ->
  isRevealed (decryptedData_at s i) = true ->
  isRevealed (decryptedData_at (transact s c) i) = true.
Proof.
  intros Hi Hrev. transact_cases s c; [by rewrite Hsame|..].
  - rewrite (decryptedData_at_insert s _ _ _ i Hdec).
    case_decide; [lia|done].
  - by rewrite (decryptedData_at_same s _ i Hdec).
  - rewrite (decryptedData_at_insert s _ _ _ i Hdec). by case_decide.
Qed.

(** X3.  Once the record of an id at or below [dataCount] is marked
    revealed it stays so under every later sequence of calls, and every
    later [requestDataDecryption] for it reverts with "Already
    decrypted". *)
Theorem revealed_assigned_is_final s i cs reqId :
  i <= dataCount s ->
  isRevealed (decryptedData_at s i) = true ->
  isRevealed (decryptedData_at (run s cs) i) = true /\
  requestDataDecryption (run s cs) i reqId = Revert Already_decrypted.
Proof.
  intros Hi Hrev.
  assert (isRevealed (decryptedData_at (run s cs) i) = true) as Hfinal.
  { revert s Hi Hrev. induction cs as [|c cs IH]; intros s Hi Hrev; [done|].
    change (run s (c :: cs)) with (run (transact s c) cs). apply IH.
    - pose proof (transact_dataCount_mono s c). lia.
    - by apply isRevealed_assigned_transact. }
  split; [exact Hfinal|]. unfold requestDataDecryption. by rewrite Hfinal.
Qed.


(** *** Where a revealed value comes from *)

(** Requests leave an event behind, accepted callbacks answer a recorded
    request for a non-zero target, and a revealed record was written by an
    accepted callback. *)
Record provenance_inv (s : State) : Prop := {
  prov_request : forall r i,
    requestToDataId s !! r = Some i -> DecryptionRequested i ∈ events s;
  prov_callback : forall i,
    DataDecrypted i ∈ events s -> i <> 0 /\ DecryptionRequested i ∈ events s;
  prov_revealed : forall i,
    isRevealed (decryptedData_at s i) = true -> DataDecrypted i ∈ events s
}.

Lemma provenance_inv_transact s c : provenance_inv s -> provenance_inv (transact s c).
Proof.
  intros [Hrq Hcb Hrv]. transact_cases s c; [by rewrite Hsame|..]; split.
  - intros r i. rewrite Hreq, Hevents, elem_of_app. eauto.
  - intros i. rewrite Hevents, !elem_of_app, list_elem_of_singleton.
    intros [[? ?]%Hcb|[=]]. auto.
  - intros i. rewrite (decryptedData_at_insert s _ _ _ i Hdec), Hevents, elem_of_app.
    case_decide; [done|]. eauto.
  - intros r0 i. rewrite Hreq, Hevents, elem_of_app, list_elem_of_singleton.
    destruct (decide (r0 = r)) as [->|Hne].
    + rewrite lookup_insert_eq. intros [= ->]. by right.
    + rewrite lookup_insert_ne by done. eauto.
  - intros i. rewrite Hevents, !elem_of_app, list_elem_of_singleton.
    intros [[? ?]%Hcb|[=]]. auto.
  - intros i. rewrite (decryptedData_at_same s _ i Hdec), Hevents, elem_of_app. eauto.
  - intros r0 i. rewrite Hreq, Hevents, elem_of_app. eauto.
  - intros i. rewrite Hevents, !elem_of_app, list_elem_of_singleton.
    intros [[? ?]%Hcb|[= ->]]; [auto|]. split; [done|]. left.
    eapply Hrq, requestToDataId_at_Some; done.
  - intros i. rewrite (decryptedData_at_insert s _ _ _ i Hdec), Hevents, elem_of_app,
      list_elem_of_singleton.
    case_decide as Hi; [subst; by right|]. eauto.
Qed.

Lemma reachable_provenance_inv s : reachable s -> provenance_inv s.
Proof.
  revert s. apply reachable_ind.
  - split; simpl.
    + intros r i. by rewrite lookup_empty.
    + intros i. by rewrite elem_of_nil.
    + intros i. unfold decryptedData_at. simpl. by rewrite lookup_empty.
  - intros ? ? _. apply provenance_inv_transact.
Qed.

(** X5.  In every reachable state, a record marked revealed belongs to a
    non-zero id for which the log holds both a [DecryptionRequested] and a
    [DataDecrypted] event: no value is revealed without a request for that
    id and an accepted callback. *)
Theorem revealed_was_requested s i :
  reachable s ->
  isRevealed (decryptedData_at s i) = true ->
  DecryptionRequested i ∈ events s /\ DataDecrypted i ∈ events s /\ 0 < i.
Proof.
  intros [_ Hcb Hrv]%reachable_provenance_inv Hrev.
  pose proof (Hrv i Hrev) as Hlog. destruct (Hcb i Hlog) as [Hnz Hrq].
  split; [done|]. split; [done|]. lia.
Qed.


(** *** Payloads *)

(** X7.  In every reachable state the value [getDecryptedData] returns fits
    32 bits, for every id. *)
Theorem value_fits_uint32 s i :
  reachable s -> (getDecryptedData s i).1 <= uint32_max.
Proof.
  revert s. unfold getDecryptedData. simpl.
  apply (reachable_ind (fun s => value (decryptedData_at s i) <= uint32_max));
    [by vm_compute|].
  intros s c _ IH. transact_cases s c; [by rewrite Hsame|..].
  - rewrite (decryptedData_at_insert s _ _ _ i Hdec). case_decide; [by vm_compute|done].
  - by rewrite (decryptedData_at_same s _ i Hdec).
  - rewrite (decryptedData_at_insert s _ _ _ i Hdec). case_decide; [|done].
    simpl. by apply abi_decode_uint32_Some in Hdecode as (_ & _ & ?).
Qed.

(** X8.  For a request id that maps to a target and a triple the signature
    check accepts, a payload shorter than one 32-byte word, or whose first
    word does not fit 32 bits, makes the callback revert in [abi.decode];
    the state is as before the call. *)
Theorem decryptDataPoint_decode_failed s requestId cleartexts proof :
  requestToDataId_at s requestId <> 0 ->
  checkSignatures requestId cleartexts proof = true ->
  (length cleartexts < 32)%nat \/ uint32_max < be_to_N (take 32 cleartexts) ->
  decryptDataPoint s requestId cleartexts proof = Revert Abi_decode_failed /\
  transact s (CallCallback requestId cleartexts proof) = s.
Proof.
  intros Hvalid Hsig Hbad.
  assert (abi_decode_uint32 cleartexts = None) as Hnone.
  { destruct (abi_decode_uint32 cleartexts) as [v|] eqn:E; [|done].
    apply abi_decode_uint32_Some in E as (? & -> & ?). lia. }
  assert (decryptDataPoint s requestId cleartexts proof = Revert Abi_decode_failed) as E.
  { unfold decryptDataPoint. apply N.eqb_neq in Hvalid.
    by rewrite Hvalid, Hsig, Hnone. }
  split; [exact E|]. by apply (transact_Revert _ _ Abi_decode_failed).
Qed.

(** *** How the calls compose *)

(** X9.  The handle sent to the oracle is the one submitted.  After a
    successful [submitEncryptedData(e)] and any further calls, the data
    point is still stored as submitted; and a [requestDataDecryption] for
    its id, while its record is not marked revealed, hands exactly the
    one-element list holding [e] to the library, so that whenever the
    library call returns ([e] is not the zero handle, the contract is
    allowed on it, the request id is new) the call succeeds with that list
    recorded as sent. *)
Theorem request_dispatches_submitted_ciphertext s e t s1 cs reqId :
  submitEncryptedData s e t = Ok s1 ->
  isRevealed (decryptedData_at (run s1 cs) (dataCount s + 1)) = false ->
  e <> 0 ->
  senderAllowed e = true ->
  reqId ∉ (oracleRequests (run s1 cs)).*1 ->
  encryptedData_at (run s1 cs) (dataCount s + 1)
    = {| edp_id := dataCount s + 1; encryptedValue := e; timestamp := t |} /\
  exists s2,
    requestDataDecryption (run s1 cs) (dataCount s + 1) reqId = Ok s2 /\
    oracleRequests s2 = oracleRequests (run s1 cs) ++ [(reqId, [e])].
Proof.
  intros (_ & Hcount & _ & Henc & _)%submitEncryptedData_Ok Hhidden Hnz Hallowed Hfresh.
  assert (encryptedData_at (run s1 cs) (dataCount s + 1)
          = {| edp_id := dataCount s + 1; encryptedValue := e; timestamp := t |})
    as Hstored.
  { unfold encryptedData_at. rewrite run_encryptedData_frame by lia.
    by rewrite Henc, lookup_insert_eq. }
  split; [exact Hstored|].
  eexists. split.
  - apply requestDataDecryption_Ok; [done|by rewrite Hstored..|done].
  - simpl. by rewrite Hstored.
Qed.

(** X10.  No single call takes a target from [Hidden] to [Revealed]: a
    callback reveals only a target that some recorded request id maps to. *)
Theorem hidden_not_revealed_in_one_call s c i :
  revealState s i = Hidden ->
  revealState (transact s c) i = Hidden \/
  revealState (transact s c) i = RequestPending.
Proof.
  intros Hhid.
  assert (isRevealed (decryptedData_at s i) = false /\ ~ hasRequest s i) as [Hflag Hnone].
  { unfold revealState in Hhid. destruct (isRevealed (decryptedData_at s i)); [done|].
    by case_bool_decide. }
  assert (isRevealed (decryptedData_at (transact s c) i) = false) as Hstill.
  { transact_cases s c; [by rewrite Hsame|..].
    - rewrite (decryptedData_at_insert s _ _ _ i Hdec). by case_decide.
    - by rewrite (decryptedData_at_same s _ i Hdec).
    - rewrite (decryptedData_at_insert s _ _ _ i Hdec). case_decide as Hi; [|done].
      exfalso. apply Hnone, hasRequest_at. subst i. eauto. }
  unfold revealState. rewrite Hstill. case_bool_decide; auto.
Qed.

(** X11.  The whole lifecycle in three calls.  From any state with room in
    the counter: a submission, a request for the id it assigned that the
    library answers with request id [reqId] (the handle is not the zero
    handle, the contract is allowed on it, the request id is new), and a
    callback on that request id with a triple the signature check accepts
    and a payload decoding to [v], leave the data point revealed with value
    [v]; the three events are logged in order. *)
Theorem submit_request_callback s e t reqId cl p v :
  dataCount s < uint256_max ->
  e <> 0 ->
  senderAllowed e = true ->
  reqId ∉ (oracleRequests s).*1 ->
  checkSignatures reqId cl p = true ->
  abi_decode_uint32 cl = Some v ->
  getDecryptedData
    (run s [CallSubmit e t; CallRequest (dataCount s + 1) reqId; CallCallback reqId cl p])
    (dataCount s + 1) = (v, true) /\
  revealState
    (run s [CallSubmit e t; CallRequest (dataCount s + 1) reqId; CallCallback reqId cl p])
    (dataCount s + 1) = Revealed /\
  events
    (run s [CallSubmit e t; CallRequest (dataCount s + 1) reqId; CallCallback reqId cl p])
  = events s ++ [DataSubmitted (dataCount s + 1) t;
                 DecryptionRequested (dataCount s + 1);
                 DataDecrypted (dataCount s + 1)] /\
  oracleRequests
    (run s [CallSubmit e t; CallRequest (dataCount s + 1) reqId; CallCallback reqId cl p])
  = oracleRequests s ++ [(reqId, [e])].
Proof.
  intros Hroom Hnz Hallowed Hfresh Hsig Hdecode.
  destruct (submitEncryptedData_succeeds s e t Hroom) as [s1 E1].
  pose proof E1 as (_ & Hc1 & Hev1 & Henc1 & Hdec1 & Hreq1 & Hor1)%submitEncryptedData_Ok.
  assert (isRevealed (decryptedData_at s1 (dataCount s + 1)) = false) as Hhidden.
  { rewrite (decryptedData_at_insert s _ _ _ (dataCount s + 1) Hdec1). by case_decide. }
  assert (encryptedValue (encryptedData_at s1 (dataCount s + 1)) = e) as Hstored.
  { unfold encryptedData_at. by rewrite Henc1, lookup_insert_eq. }
  assert (exists s2, requestDataDecryption s1 (dataCount s + 1) reqId = Ok s2)
    as [s2 E2].
  { eexists. apply requestDataDecryption_Ok; rewrite ?Hstored, ?Hor1; done. }
  pose proof E2
    as (_ & _ & _ & _ & _ & _ & Hdec2 & Hreq2 & Hev2 & Hor2)%requestDataDecryption_Ok_inv.
  assert (requestToDataId_at s2 reqId = dataCount s + 1) as Htarget.
  { rewrite (requestToDataId_at_insert s1 _ _ _ reqId Hreq2). by case_decide. }
  destruct (decryptDataPoint_accepts s2 reqId cl p v) as [s3 E3];
    [rewrite Htarget; lia|done|done|].
  pose proof E3
    as (_ & _ & v' & Hv' & _ & _ & Hdec3 & _ & Hev3 & Hor3)%decryptDataPoint_Ok_inv.
  rewrite Hdecode in Hv'. injection Hv' as <-. rewrite Htarget in Hdec3, Hev3.
  replace (run s [CallSubmit e t; CallRequest (dataCount s + 1) reqId;
                  CallCallback reqId cl p]) with s3.
  2:{ unfold run. simpl.
      by rewrite (transact_Ok s (CallSubmit e t) s1 E1),
        (transact_Ok s1 (CallRequest (dataCount s + 1) reqId) s2 E2),
        (transact_Ok s2 (CallCallback reqId cl p) s3 E3). }
  assert (getDecryptedData s3 (dataCount s + 1) = (v, true)) as Hget
    by (by eapply getDecryptedData_insert).
  split; [exact Hget|]. split.
  { apply revealState_Revealed. unfold getDecryptedData in Hget. congruence. }
  split.
  - rewrite Hev3, Hev2, Hev1. by rewrite <-!app_assoc.
  - rewrite Hor3, Hor2, Hor1, Hstored. done.
Qed.

(** *** What is sent to the oracle *)

(** The targets of the requests made, in the order of the
    [DecryptionRequested] events. *)
Definition requestedIds (log : list Event) : list N :=
  omap (fun e => match e with DecryptionRequested i => Some i | _ => None end) log.

(** An oracle request made for id [i]: the id is assigned, and the request
    carries one handle, the non-zero handle stored for [i]. *)
Definition dispatched_for (s : State) (i : N) (rq : N * list N) : Prop :=
  1 <= i <= dataCount s /\
  encryptedValue (encryptedData_at s i) <> 0 /\
  rq.2 = [encryptedValue (encryptedData_at s i)].

Lemma requestedIds_snoc log e :
  requestedIds (log ++ [e]) =
  requestedIds log ++ match e with DecryptionRequested i => [i] | _ => [] end.
Proof. unfold requestedIds. rewrite omap_app. by destruct e. Qed.

(** X12.  In every reachable state the requests handed to the decryption
    oracle match the [DecryptionRequested] events one to one and in order;
    each was made for an assigned id and carries exactly one handle, the
    non-zero handle stored for that id, and no other.  The request ids are
    pairwise different, and every recorded request id is the id of one of
    these oracle requests. *)
Theorem oracle_requests_match_events s :
  reachable s ->
  Forall2 (dispatched_for s) (requestedIds (events s)) (oracleRequests s) /\
  NoDup (oracleRequests s).*1 /\
  (forall r i, requestToDataId s !! r = Some i -> r ∈ (oracleRequests s).*1).
Proof.
  intros Hreach. split; [|split].
  - revert s Hreach. apply reachable_ind; [constructor|].
    intros s c Hreach IH.
    destruct (reachable_ids_inv s Hreach) as [_ _ Hstored].
    transact_cases s c; [by rewrite Hsame|..];
      rewrite Hevents, requestedIds_snoc, Horacle.
    + rewrite app_nil_r. eapply Forall2_impl; [exact IH|].
      intros i rq (Hi & Hnz & Hone). unfold dispatched_for.
      rewrite (encryptedData_at_frame s _ _ _ i Henc), Hcount by lia.
      split; [lia|done].
    + apply Forall2_app.
      * eapply Forall2_impl; [exact IH|].
        intros i rq (Hi & Hnz & Hone). unfold dispatched_for.
        by rewrite (encryptedData_at_same s _ i Henc), Hcount.
      * repeat constructor; simpl; rewrite ?(encryptedData_at_same s _ d Henc), ?Hcount;
          try done; by apply Hstored, nonzero_handle_stored.
    + rewrite app_nil_r. eapply Forall2_impl; [exact IH|].
      intros i rq (Hi & Hnz & Hone). unfold dispatched_for.
      by rewrite (encryptedData_at_same s _ i Henc), Hcount.
  - revert s Hreach. apply reachable_ind; [constructor|].
    intros s c _ IH. transact_cases s c; [by rewrite Hsame|..]; rewrite Horacle;
      [done| |done].
    rewrite fmap_app. apply NoDup_app. split; [done|]. split.
    + intros x Hx ->%list_elem_of_singleton. done.
    + apply NoDup_singleton.
  - apply (reachable_requests_inv s Hreach).
Qed.

(** *** The request table *)

(** X13.  The entry of a request id in [requestToDataId] is written only by
    a [requestDataDecryption] that the oracle answers with that same id:
    over any sequence of calls in which no request is answered with [r],
    the target [r] maps to is unchanged, so a recorded request stays live,
    callbacks and submissions included. *)
Theorem request_entry_stable s cs r :
  Forall (fun c => forall d, c <> CallRequest d r) cs ->
  requestToDataId_at (run s cs) r = requestToDataId_at s r.
Proof.
  revert s. induction cs as [|c cs IH]; intros s Hfresh; [done|].
  apply Forall_cons in Hfresh as [Hc Hcs].
  change (run s (c :: cs)) with (run (transact s c) cs).
  rewrite (IH _ Hcs). clear IH Hcs.
  transact_cases s c; [by rewrite Hsame|..].
  - unfold requestToDataId_at. by rewrite Hreq.
  - rewrite (requestToDataId_at_insert s _ _ _ r Hreq).
    case_decide as E; [|done]. subst. by destruct (Hc d).
  - unfold requestToDataId_at. by rewrite Hreq.
Qed.
End Contract.

(** ** Aggregation

    The contract has no aggregation function.  The engine of the
    specification is modelled over the contract's store of encrypted data
    points, with the operator as the external combine capability on
    ciphertext handles. *)

Inductive AggregateError := EmptyInput | MissingInput.

(** Modelled from the spec: [CiphertextStore.get] is missing from the
    sources.  "get(id) -> DataPoint | NotFound: read-only lookup": an id
    resolves when the store holds a data point under it. *)
Definition get (s : State) (id : N) : option EncryptedDataPoint :=
  encryptedData s !! id.

Section Aggregation.

Variable operator : euint32 -> euint32 -> euint32.

(** Modelled from the spec: [AggregationEngine.aggregate] is missing from
    the sources.  It "folds the referenced ciphertexts left-to-right using
    the supplied associative operator"; it "fails with MissingInput if any
    id does not resolve via CiphertextStore, and with EmptyInput if the
    sequence is empty"; "any missing input aborts the whole call". *)
Definition aggregate (s : State) (ids : list N) : AggregateError + euint32 :=
  match ids with
  | [] => inl EmptyInput
  | _ :: _ =>
      match mapM (fun id => encryptedValue <$> get s id) ids with
      | Some (c :: cs) => inr (foldl operator c cs)
      | Some [] | None => inl MissingInput
      end
  end.

(** The same fold with the seed made optional, so that every ciphertext,
    the first included, is consumed by one step. *)
Definition combine (acc : option euint32) (c : euint32) : option euint32 :=
  Some (match acc with
        | None => c
        | Some a => operator a c
        end).

Lemma foldl_combine_Some cs : forall a,
  foldl combine (Some a) cs = Some (foldl operator a cs).
Proof. induction cs as [|c cs IH]; intros a; [done|apply IH]. Qed.

Lemma mapM_Permutation {A B} (f : A -> option B) (l l' : list A) :
  l ≡ₚ l' ->
  (mapM f l = None /\ mapM f l' = None) \/
  (exists k k', mapM f l = Some k /\ mapM f l' = Some k' /\ k ≡ₚ k').
Proof.
  induction 1 as [|x l l' _ IH|x y l|l1 l2 l3 _ IH1 _ IH2]; simpl.
  - right. by exists [], [].
  - destruct (f x) as [b|]; simpl; [|by left].
    destruct IH as [[-> ->]|(k & k' & -> & -> & Hk)]; simpl; [by left|].
    right. exists (b :: k), (b :: k'). repeat split. by apply Permutation_skip.
  - destruct (f x) as [b|], (f y) as [b'|], (mapM f l) as [k|]; simpl;
      try by left.
    right. exists (b' :: b :: k), (b :: b' :: k). repeat split. apply Permutation_swap.
  - destruct IH1 as [[-> H2]|(k1 & k2 & -> & H2 & Hk12)].
    + destruct IH2 as [[_ ->]|(? & ? & ? & _)]; [by left|congruence].
    + destruct IH2 as [[? _]|(k2' & k3 & H2' & -> & Hk23)]; [congruence|].
      right. exists k1, k3. repeat split. etrans; [exact Hk12|]. congruence.
Qed.

Lemma mapM_cons_nonempty {A B} (f : A -> option B) x l :
  mapM f (x :: l) <> Some [].
Proof. simpl. destruct (f x); simpl; [|done]. by destruct (mapM f l). Qed.

Section Commutative.

(** §4.2 takes "the supplied associative operator". *)
Hypothesis operator_assoc : forall a b c,
  operator a (operator b c) = operator (operator a b) c.
Hypothesis operator_comm : forall a b, operator a b = operator b a.

Lemma foldl_combine_Permutation cs cs' :
  cs ≡ₚ cs' -> forall acc, foldl combine acc cs = foldl combine acc cs'.
Proof.
  induction 1 as [|c cs cs' _ IH|c d cs|cs1 cs2 cs3 _ IH1 _ IH2]; intros acc; simpl.
  - done.
  - apply IH.
  - f_equal. unfold combine. f_equal. destruct acc as [a|]; [|apply operator_comm].
    by rewrite <-!operator_assoc, (operator_comm c d).
  - by rewrite IH1.
Qed.

Lemma foldl_operator_Permutation c cs c' cs' :
  c :: cs ≡ₚ c' :: cs' -> foldl operator c cs = foldl operator c' cs'.
Proof.
  intros Hp. apply (inj Some). rewrite <-!foldl_combine_Some.
  exact (foldl_combine_Permutation _ _ Hp None).
Qed.

Lemma aggregate_Permutation s ids ids' :
  ids ≡ₚ ids' -> aggregate s ids = aggregate s ids'.
Proof.
  intros Hp. unfold aggregate.
  destruct ids as [|i ids], ids' as [|i' ids'];
    [done|by apply Permutation_nil_cons in Hp
         |by symmetry in Hp; apply Permutation_nil_cons in Hp|].
  destruct (mapM_Permutation (fun id => encryptedValue <$> get s id) _ _ Hp)
    as [[-> ->]|(k & k' & Hk & Hk' & Hkk)]; [done|].
  rewrite Hk, Hk'.
  destruct k as [|c cs]; [by apply mapM_cons_nonempty in Hk|].
  destruct k' as [|c' cs']; [by apply mapM_cons_nonempty in Hk'|].
  f_equal. by apply foldl_operator_Permutation.
Qed.

End Commutative.

Lemma aggregate_missing s ids id :
  id ∈ ids -> get s id = None -> aggregate s ids = inl MissingInput.
Proof.
  intros Hin Hnone. unfold aggregate.
  destruct ids as [|i ids]; [by apply elem_of_nil in Hin|].
  rewrite (mapM_None_2 (fun id => encryptedValue <$> get s id) (i :: ids)); [done|].
  apply Exists_exists. exists id. split; [done|]. simpl. by rewrite Hnone.
Qed.

Lemma aggregate_resolved s ids :
  ids <> [] -> Forall (fun id => is_Some (get s id)) ids ->
  exists c, aggregate s ids = inr c.
Proof.
  intros Hne Hall. unfold aggregate. destruct ids as [|i ids]; [done|].
  destruct (mapM_is_Some_2 (fun id => encryptedValue <$> get s id) (i :: ids))
    as [k Hk].
  { eapply Forall_impl; [exact Hall|]. intros id [dp Hdp]. simpl. rewrite Hdp. by eexists. }
  rewrite Hk. destruct k as [|c cs]; [by apply mapM_cons_nonempty in Hk|]. eauto.
Qed.

(** C4.  [aggregate] is defined over "the supplied associative operator"
    (§4.2).  For such an operator that is also commutative, [aggregate]
    over any permutation of a non-empty id sequence returns the same
    result, a ciphertext when every id resolves; over the empty sequence it
    fails with [EmptyInput]; and a sequence holding an id that does not
    resolve via the store fails as a whole with [MissingInput]. *)
Theorem aggregate_order_independent s :
  (forall a b c, operator a (operator b c) = operator (operator a b) c) ->
  (forall a b, operator a b = operator b a) ->
  (forall ids ids', ids <> [] -> ids ≡ₚ ids' -> aggregate s ids = aggregate s ids') /\
  (forall ids, ids <> [] -> Forall (fun id => is_Some (get s id)) ids ->
     exists c, aggregate s ids = inr c) /\
  aggregate s [] = inl EmptyInput /\
  (forall ids id, id ∈ ids -> get s id = None -> aggregate s ids = inl MissingInput).
Proof.
  intros Hassoc Hcomm.
  split; [intros ids ids' _; by apply aggregate_Permutation|].
  split; [apply aggregate_resolved|].
  split; [done|apply aggregate_missing].
Qed.

End Aggregation.

(** ** Concrete runs

    A signature check that accepts one proof, whatever the payload, stands
    in for the oracle's verifier, and an access-control list on which the
    contract was allowed on every handle stands in for the library's; the
    contract treats both as opaque. *)

Definition validProof : list byte := [x2a].
Definition invalidProof : list byte := [x00].

Definition checkProof (requestId : N) (cleartexts proof : list byte) : bool :=
  match proof with
  | [x2a] => true
  | _ => false
  end.

Definition openACL (handle : N) : bool := true.

(** One data point submitted and its decryption requested; the library
    picked request id 7. *)
Definition pending_state : State :=
  run checkProof openACL deployed [CallSubmit 77 1000; CallRequest 1 7].

(** The callback for request 7 delivered clear value 5 with a valid proof. *)
Definition revealed_state : State :=
  transact checkProof openACL pending_state
    (CallCallback 7 (abi_word x05) validProof).

(** Wrapping 32-bit addition: associative and commutative. *)
Definition add32 (a b : euint32) : euint32 := (a + b) mod 2 ^ 32.

Definition three_points : State :=
  run checkProof openACL deployed
    [CallSubmit 10 10; CallSubmit 20 11; CallSubmit 30 12].


Lemma add32_assoc a b c : add32 a (add32 b c) = add32 (add32 a b) c.
Proof.
  unfold add32.
  by rewrite N.Div0.add_mod_idemp_r, N.Div0.add_mod_idemp_l, N.add_assoc.
Qed.

Lemma add32_comm a b : add32 a b = add32 b a.
Proof. unfold add32. by rewrite N.add_comm. Qed.

Lemma pending_state_reachable : reachable checkProof openACL pending_state.
Proof. by exists [CallSubmit 77 1000; CallRequest 1 7]. Qed.

Lemma revealed_state_reachable : reachable checkProof openACL revealed_state.
Proof.
  by exists [CallSubmit 77 1000; CallRequest 1 7;
             CallCallback 7 (abi_word x05) validProof].
Qed.

Lemma three_points_reachable : reachable checkProof openACL three_points.
Proof. by exists [CallSubmit 10 10; CallSubmit 20 11; CallSubmit 30 12]. Qed.

(** ** The claims on concrete runs *)

(** C1, as the specification states it, fails: after the callback for
    request 7 was accepted, request 7 still maps to data point 1.  The same
    callback delivered a second time is accepted, with a second
    [DataDecrypted] in the log, and so is a second callback for request 7
    with another payload, which replaces clear value 5 by 9. *)
Lemma second_delivery_accepted :
  decryptDataPoint checkProof pending_state 7 (abi_word x05) validProof
    = Ok revealed_state /\
  getDecryptedData revealed_state 1 = (5, true) /\
  requestToDataId_at revealed_state 7 = 1 /\
  (exists s2,
     decryptDataPoint checkProof revealed_state 7 (abi_word x05) validProof = Ok s2 /\
     events s2 = [DataSubmitted 1 1000; DecryptionRequested 1;
                  DataDecrypted 1; DataDecrypted 1]) /\
  (exists s2,
     decryptDataPoint checkProof revealed_state 7 (abi_word x09) validProof = Ok s2 /\
     getDecryptedData s2 1 = (9, true) /\
     events s2 = [DataSubmitted 1 1000; DecryptionRequested 1;
                  DataDecrypted 1; DataDecrypted 1]).
Proof.
  split; [vm_compute; reflexivity|]. split; [vm_compute; reflexivity|].
  split; [vm_compute; reflexivity|].
  split; eexists; (split; [vm_compute; reflexivity|]).
  - vm_compute; reflexivity.
  - split; vm_compute; reflexivity.
Qed.

(** C1 (amended) at the same run: after the accepted callback, a further
    submission and a further request, a delivery for request 7 is still
    accepted. *)
Lemma decryptDataPoint_redelivery_witness :
  decryptDataPoint checkProof pending_state 7 (abi_word x05) validProof
    = Ok revealed_state /\
  reachable checkProof openACL pending_state /\
  requestToDataId revealed_state = requestToDataId pending_state /\
  requestToDataId_at
    (run checkProof openACL revealed_state [CallSubmit 78 1001; CallRequest 2 8]) 7
    = requestToDataId_at pending_state 7 /\
  exists s'',
    decryptDataPoint checkProof
      (run checkProof openACL revealed_state [CallSubmit 78 1001; CallRequest 2 8])
      7 (abi_word x09) validProof = Ok s'' /\
    getDecryptedData s'' (requestToDataId_at pending_state 7) = (9, true).
Proof.
  assert (decryptDataPoint checkProof pending_state 7 (abi_word x05) validProof
          = Ok revealed_state) as H by (vm_compute; reflexivity).
  destruct (decryptDataPoint_redelivery checkProof openACL pending_state 7
              (abi_word x05) validProof revealed_state H)
    as (Hsame & _ & _ & Hlater).
  destruct (Hlater pending_state_reachable [CallSubmit 78 1001; CallRequest 2 8])
    as [Hkept Haccept].
  split; [exact H|]. split; [exact pending_state_reachable|].
  split; [exact Hsame|]. split; [exact Hkept|].
  apply Haccept; vm_compute; reflexivity.
Defined.

(** C2, as the specification states it, fails: data point 1 is
    [RequestPending] on request 7, and a further request succeeds; the
    library picks request id 8, and both ids are outstanding for the
    same target. *)
Lemma two_outstanding_requests :
  revealState pending_state 1 = RequestPending /\
  exists s',
    requestDataDecryption openACL pending_state 1 8 = Ok s' /\
    requestToDataId_at s' 7 = 1 /\
    requestToDataId_at s' 8 = 1 /\
    oracleRequests s' = [(7, [77]); (8, [77])] /\
    revealState s' 1 = RequestPending.
Proof.
  split; [vm_compute; reflexivity|].
  eexists. split; [vm_compute; reflexivity|].
  repeat split; vm_compute; reflexivity.
Qed.

(** C2 (amended) at the same run. *)
Lemma requestDataDecryption_while_pending_witness :
  revealState pending_state 1 = RequestPending /\
  encryptedValue (encryptedData_at pending_state 1) <> 0 /\
  openACL (encryptedValue (encryptedData_at pending_state 1)) = true /\
  (8 ∉ (oracleRequests pending_state).*1) /\
  exists s',
    requestDataDecryption openACL pending_state 1 8 = Ok s' /\
    requestToDataId_at s' 8 = 1 /\
    (forall r, requestToDataId_at pending_state r = 1 -> requestToDataId_at s' r = 1) /\
    (forall r, r <> 8 -> requestToDataId_at s' r = requestToDataId_at pending_state r) /\
    events s' = events pending_state ++ [DecryptionRequested 1] /\
    oracleRequests s' =
      oracleRequests pending_state
        ++ [(8, [encryptedValue (encryptedData_at pending_state 1)])] /\
    revealState s' 1 = RequestPending.
Proof.
  assert (revealState pending_state 1 = RequestPending) as H1
    by (vm_compute; reflexivity).
  assert (encryptedValue (encryptedData_at pending_state 1) <> 0) as H2
    by (vm_compute; discriminate).
  assert (openACL (encryptedValue (encryptedData_at pending_state 1)) = true) as H3
    by reflexivity.
  assert (8 ∉ (oracleRequests pending_state).*1) as H4 by compute_done.
  split; [exact H1|]. split; [exact H2|]. split; [exact H3|]. split; [exact H4|].
  exact (requestDataDecryption_while_pending openACL pending_state 1 8 H1 H2 H3 H4).
Defined.

(** C3, as the specification states it, fails: with requests 7 and 8 both
    mapped to data point 1, the callback for 7 sets clear value 5 and the
    callback for 8 then replaces it by 9; the value was written twice, by
    two callbacks, and changed after it was set. *)
Lemma clearValue_overwritten :
  getDecryptedData
    (run checkProof openACL pending_state
       [CallRequest 1 8; CallCallback 7 (abi_word x05) validProof]) 1
    = (5, true) /\
  getDecryptedData
    (run checkProof openACL pending_state
       [CallRequest 1 8; CallCallback 7 (abi_word x05) validProof;
        CallCallback 8 (abi_word x09) validProof]) 1
    = (9, true) /\
  events
    (run checkProof openACL pending_state
       [CallRequest 1 8; CallCallback 7 (abi_word x05) validProof;
        CallCallback 8 (abi_word x09) validProof])
    = [DataSubmitted 1 1000; DecryptionRequested 1; DecryptionRequested 1;
       DataDecrypted 1; DataDecrypted 1].
Proof. repeat split; vm_compute; reflexivity. Qed.

(** C3 (amended) at the first callback of the run above. *)
Lemma clearValue_writers_witness :
  getDecryptedData
    (transact checkProof openACL pending_state
       (CallCallback 7 (abi_word x05) validProof)) 1
    <> getDecryptedData pending_state 1 /\
  ((exists requestId cleartexts proof v,
      CallCallback 7 (abi_word x05) validProof
        = CallCallback requestId cleartexts proof /\
      requestToDataId_at pending_state requestId = 1 /\
      checkProof requestId cleartexts proof = true /\
      abi_decode_uint32 cleartexts = Some v /\
      getDecryptedData
        (transact checkProof openACL pending_state
           (CallCallback 7 (abi_word x05) validProof)) 1
        = (v, true)) \/
   (exists e t,
      CallCallback 7 (abi_word x05) validProof = CallSubmit e t /\
      1 = dataCount pending_state + 1 /\
      getDecryptedData
        (transact checkProof openACL pending_state
           (CallCallback 7 (abi_word x05) validProof)) 1
        = (0, false))).
Proof.
  assert (getDecryptedData
            (transact checkProof openACL pending_state
               (CallCallback 7 (abi_word x05) validProof)) 1
          <> getDecryptedData pending_state 1) as H
    by (vm_compute; discriminate).
  split; [exact H|].
  exact (proj1 (clearValue_writers checkProof openACL pending_state
                  (CallCallback 7 (abi_word x05) validProof) 1) H).
Defined.

(** C4 with wrapping addition over three data points. *)
Lemma aggregate_order_independent_witness :
  (forall a b c, add32 a (add32 b c) = add32 (add32 a b) c) /\
  (forall a b, add32 a b = add32 b a) /\
  aggregate add32 three_points [1; 2; 3] = inr 60 /\
  aggregate add32 three_points [3; 1; 2] = aggregate add32 three_points [1; 2; 3].
Proof.
  split; [exact add32_assoc|]. split; [exact add32_comm|].
  split; [vm_compute; reflexivity|].
  destruct (aggregate_order_independent add32 three_points add32_assoc add32_comm)
    as [Hperm _].
  apply Hperm; [discriminate|].
  exact (Permutation_cons_append [1; 2] 3).
Defined.

(** C5 at a run: data point 1 is revealed, and a new request for it reverts. *)
Lemma requestDataDecryption_already_revealed_witness :
  revealState revealed_state 1 = Revealed /\
  requestDataDecryption openACL revealed_state 1 8 = Revert Already_decrypted /\
  transact checkProof openACL revealed_state (CallRequest 1 8) = revealed_state.
Proof.
  assert (revealState revealed_state 1 = Revealed) as H by (vm_compute; reflexivity).
  split; [exact H|].
  exact (requestDataDecryption_already_revealed checkProof openACL revealed_state 1 8 H).
Defined.

(** C6 at a run of two submissions around a request: ids 1 and 2. *)
Lemma submitted_ids_strictly_increasing_witness :
  submittedIds
    (events (run checkProof openACL deployed
               [CallSubmit 77 1000; CallRequest 1 7; CallSubmit 78 1001]))
    = [1; 2] /\
  2 ∈ submittedIds
        (events (run checkProof openACL deployed
                   [CallSubmit 77 1000; CallRequest 1 7; CallSubmit 78 1001])) /\
  encryptedData
    (run checkProof openACL
       (run checkProof openACL deployed
          [CallSubmit 77 1000; CallRequest 1 7; CallSubmit 78 1001])
       [CallSubmit 79 1002]) !! 2
  = encryptedData
      (run checkProof openACL deployed
         [CallSubmit 77 1000; CallRequest 1 7; CallSubmit 78 1001]) !! 2.
Proof.
  assert (2 ∈ submittedIds
            (events (run checkProof openACL deployed
                       [CallSubmit 77 1000; CallRequest 1 7; CallSubmit 78 1001])))
    as H by (vm_compute; apply list_elem_of_further, list_elem_of_here).
  split; [vm_compute; reflexivity|]. split; [exact H|].
  destruct (submitted_ids_strictly_increasing checkProof openACL
              [CallSubmit 77 1000; CallRequest 1 7; CallSubmit 78 1001])
    as (_ & _ & Hkeep).
  exact (proj2 (Hkeep 2 [CallSubmit 79 1002] H)).
Defined.

(** C7 at a run: no request id 42 was ever recorded. *)
Lemma decryptDataPoint_unknown_request_witness :
  requestToDataId pending_state !! 42 = None /\
  decryptDataPoint checkProof pending_state 42 (abi_word x05) validProof
    = Revert Invalid_request /\
  transact checkProof openACL pending_state
    (CallCallback 42 (abi_word x05) validProof)
    = pending_state.
Proof.
  assert (requestToDataId pending_state !! 42 = None) as H
    by (vm_compute; reflexivity).
  split; [exact H|].
  exact (decryptDataPoint_unknown_request checkProof openACL pending_state 42
           (abi_word x05) validProof H).
Defined.

(** C8 at a run: request 7 is pending and the proof delivered is invalid. *)
Lemma decryptDataPoint_verification_failed_witness :
  requestToDataId_at pending_state 7 <> 0 /\
  checkProof 7 (abi_word x05) invalidProof = false /\
  decryptDataPoint checkProof pending_state 7 (abi_word x05) invalidProof
    = Revert Invalid_signatures /\
  revealState
    (transact checkProof openACL pending_state
       (CallCallback 7 (abi_word x05) invalidProof)) 1
    = RequestPending.
Proof.
  assert (requestToDataId_at pending_state 7 <> 0) as H1
    by (vm_compute; discriminate).
  assert (checkProof 7 (abi_word x05) invalidProof = false) as H2 by reflexivity.
  split; [exact H1|]. split; [exact H2|].
  destruct (decryptDataPoint_verification_failed checkProof openACL pending_state 7
              (abi_word x05) invalidProof H1 H2) as (Hrev & _ & Hstay & _).
  split; [exact Hrev|].
  apply Hstay. vm_compute. reflexivity.
Defined.

(** C9, as stated, fails: id 5 was never assigned, and a request for it
    dispatches nothing.  With the contract allowed on every handle and a
    new request id, the call reverts in the library on the zero handle; no
    request id is recorded and no event is emitted. *)
Lemma unassigned_request_rejected :
  submittedIds (events pending_state) = [1] /\
  requestDataDecryption openACL pending_state 5 8 = Revert Sender_not_allowed /\
  transact checkProof openACL pending_state (CallRequest 5 8) = pending_state /\
  requestToDataId_at
    (transact checkProof openACL pending_state (CallRequest 5 8)) 8 = 0 /\
  events (transact checkProof openACL pending_state (CallRequest 5 8))
    = [DataSubmitted 1 1000; DecryptionRequested 1] /\
  oracleRequests (transact checkProof openACL pending_state (CallRequest 5 8))
    = [(7, [77])].
Proof. repeat split; vm_compute; reflexivity. Qed.

(** C9 (amended) at the same run. *)
Lemma requestDataDecryption_unassigned_witness :
  reachable checkProof openACL pending_state /\
  unassigned pending_state 5 /\
  decryptedData_at pending_state 5 = zeroDecrypted /\
  encryptedData_at pending_state 5 = zeroEncrypted /\
  requestDataDecryption openACL pending_state 5 8 = Revert Sender_not_allowed /\
  transact checkProof openACL pending_state (CallRequest 5 8) = pending_state.
Proof.
  assert (unassigned pending_state 5) as H by (right; vm_compute; reflexivity).
  split; [exact pending_state_reachable|]. split; [exact H|].
  exact (requestDataDecryption_unassigned checkProof openACL pending_state 5 8
           pending_state_reachable H).
Defined.

(** C10 at a run: id 5 was never assigned; data point 1 is assigned and not
    revealed. *)
Lemma getDecryptedData_unassigned_witness :
  reachable checkProof openACL pending_state /\
  unassigned pending_state 5 /\
  getDecryptedData pending_state 5 = (0, false) /\
  getDecryptedData pending_state 1 = (0, false).
Proof.
  assert (unassigned pending_state 5) as H by (right; vm_compute; reflexivity).
  split; [exact pending_state_reachable|]. split; [exact H|].
  destruct (getDecryptedData_unassigned checkProof openACL pending_state 5
              pending_state_reachable H) as [Hzero Hsame].
  split; [exact Hzero|].
  apply Hsame; [vm_compute; split; discriminate|vm_compute; reflexivity].
Defined.

(** ** The further properties on concrete runs *)

(** X1 after three submissions: ids 1, 2, 3. *)
Lemma submitted_ids_consecutive_witness :
  reachable checkProof openACL three_points /\
  idsUpTo (dataCount three_points) = [1; 2; 3] /\
  submittedIds (events three_points) = idsUpTo (dataCount three_points) /\
  dataCount three_points <= uint256_max.
Proof.
  split; [exact three_points_reachable|]. split; [vm_compute; reflexivity|].
  exact (submitted_ids_consecutive checkProof openACL three_points
           three_points_reachable).
Defined.

(** X2 at data point 1 of a run. *)
Lemma encryptedData_getter_witness :
  reachable checkProof openACL revealed_state /\
  1 <= 1 <= dataCount revealed_state /\
  edp_id (encryptedData_at revealed_state 1) = 1 /\
  DataSubmitted 1 (timestamp (encryptedData_at revealed_state 1))
    ∈ events revealed_state.
Proof.
  assert (1 <= 1 <= dataCount revealed_state) as H
    by (vm_compute; split; discriminate).
  split; [exact revealed_state_reachable|]. split; [exact H|].
  exact (proj1 (encryptedData_getter checkProof openACL revealed_state 1
                  revealed_state_reachable) H).
Defined.

(** X3: data point 1 stays revealed through a further submission and a
    second callback. *)
Lemma revealed_assigned_is_final_witness :
  1 <= dataCount revealed_state /\
  isRevealed (decryptedData_at revealed_state 1) = true /\
  isRevealed
    (decryptedData_at
       (run checkProof openACL revealed_state
          [CallSubmit 78 1001; CallCallback 7 (abi_word x09) validProof]) 1)
    = true /\
  requestDataDecryption openACL
    (run checkProof openACL revealed_state
       [CallSubmit 78 1001; CallCallback 7 (abi_word x09) validProof]) 1 9
    = Revert Already_decrypted.
Proof.
  assert (1 <= dataCount revealed_state) as H1 by (vm_compute; discriminate).
  assert (isRevealed (decryptedData_at revealed_state 1) = true) as H2
    by (vm_compute; reflexivity).
  split; [exact H1|]. split; [exact H2|].
  exact (revealed_assigned_is_final checkProof openACL revealed_state 1
           [CallSubmit 78 1001; CallCallback 7 (abi_word x09) validProof] 9 H1 H2).
Defined.


(** X5 at data point 1 of a run. *)
Lemma revealed_was_requested_witness :
  reachable checkProof openACL revealed_state /\
  isRevealed (decryptedData_at revealed_state 1) = true /\
  DecryptionRequested 1 ∈ events revealed_state /\
  DataDecrypted 1 ∈ events revealed_state /\
  0 < 1.
Proof.
  assert (isRevealed (decryptedData_at revealed_state 1) = true) as H
    by (vm_compute; reflexivity).
  split; [exact revealed_state_reachable|]. split; [exact H|].
  exact (revealed_was_requested checkProof openACL revealed_state 1
           revealed_state_reachable H).
Defined.


(** X7 at data point 1 of a run. *)
Lemma value_fits_uint32_witness :
  reachable checkProof openACL revealed_state /\
  (getDecryptedData revealed_state 1).1 <= uint32_max.
Proof.
  split; [exact revealed_state_reachable|].
  exact (value_fits_uint32 checkProof openACL revealed_state 1
           revealed_state_reachable).
Defined.

(** X8: a one-byte payload for the pending request 7, with a valid proof. *)
Lemma decryptDataPoint_decode_failed_witness :
  requestToDataId_at pending_state 7 <> 0 /\
  checkProof 7 [x05] validProof = true /\
  ((length [x05] < 32)%nat \/ uint32_max < be_to_N (take 32 [x05])) /\
  decryptDataPoint checkProof pending_state 7 [x05] validProof
    = Revert Abi_decode_failed /\
  transact checkProof openACL pending_state (CallCallback 7 [x05] validProof)
    = pending_state.
Proof.
  assert (requestToDataId_at pending_state 7 <> 0) as H1
    by (vm_compute; discriminate).
  assert (checkProof 7 [x05] validProof = true) as H2 by reflexivity.
  assert ((length [x05] < 32)%nat \/ uint32_max < be_to_N (take 32 [x05])) as H3
    by (left; simpl; lia).
  split; [exact H1|]. split; [exact H2|]. split; [exact H3|].
  exact (decryptDataPoint_decode_failed checkProof openACL pending_state 7 [x05]
           validProof H1 H2 H3).
Defined.

(** X9: data point 1 is submitted with handle 77; after a second submission
    and a request for data point 2, a request for data point 1 sends 77. *)
Lemma request_dispatches_submitted_ciphertext_witness :
  submitEncryptedData deployed 77 1000
    = Ok (run checkProof openACL deployed [CallSubmit 77 1000]) /\
  isRevealed
    (decryptedData_at
       (run checkProof openACL (run checkProof openACL deployed [CallSubmit 77 1000])
          [CallSubmit 78 1001; CallRequest 2 4]) (dataCount deployed + 1))
    = false /\
  77 <> 0 /\
  openACL 77 = true /\
  (7 ∉ (oracleRequests
          (run checkProof openACL (run checkProof openACL deployed [CallSubmit 77 1000])
             [CallSubmit 78 1001; CallRequest 2 4])).*1) /\
  exists s2,
    requestDataDecryption openACL
      (run checkProof openACL (run checkProof openACL deployed [CallSubmit 77 1000])
         [CallSubmit 78 1001; CallRequest 2 4]) (dataCount deployed + 1) 7 = Ok s2 /\
    oracleRequests s2
    = oracleRequests
        (run checkProof openACL (run checkProof openACL deployed [CallSubmit 77 1000])
           [CallSubmit 78 1001; CallRequest 2 4]) ++ [(7, [77])].
Proof.
  assert (submitEncryptedData deployed 77 1000
          = Ok (run checkProof openACL deployed [CallSubmit 77 1000])) as H1
    by (vm_compute; reflexivity).
  assert (isRevealed
            (decryptedData_at
               (run checkProof openACL
                  (run checkProof openACL deployed [CallSubmit 77 1000])
                  [CallSubmit 78 1001; CallRequest 2 4]) (dataCount deployed + 1))
          = false) as H2 by (vm_compute; reflexivity).
  assert (77 <> 0) as H3 by discriminate.
  assert (openACL 77 = true) as H4 by reflexivity.
  assert (7 ∉ (oracleRequests
                 (run checkProof openACL
                    (run checkProof openACL deployed [CallSubmit 77 1000])
                    [CallSubmit 78 1001; CallRequest 2 4])).*1) as H5
    by compute_done.
  split; [exact H1|]. split; [exact H2|]. split; [exact H3|].
  split; [exact H4|]. split; [exact H5|].
  exact (proj2 (request_dispatches_submitted_ciphertext checkProof openACL deployed
                  77 1000 _ [CallSubmit 78 1001; CallRequest 2 4] 7 H1 H2 H3 H4 H5)).
Defined.

(** X10: a hidden data point becomes pending, not revealed, by a request. *)
Lemma hidden_not_revealed_in_one_call_witness :
  revealState (run checkProof openACL deployed [CallSubmit 77 1000]) 1 = Hidden /\
  (revealState
     (transact checkProof openACL
        (run checkProof openACL deployed [CallSubmit 77 1000])
        (CallRequest 1 7)) 1 = Hidden \/
   revealState
     (transact checkProof openACL
        (run checkProof openACL deployed [CallSubmit 77 1000])
        (CallRequest 1 7)) 1 = RequestPending).
Proof.
  assert (revealState (run checkProof openACL deployed [CallSubmit 77 1000]) 1 = Hidden)
    as H by (vm_compute; reflexivity).
  split; [exact H|].
  exact (hidden_not_revealed_in_one_call checkProof openACL _ (CallRequest 1 7) 1 H).
Defined.

(** X11 from the deployed contract, with handle 77 and payload 5. *)
Lemma submit_request_callback_witness :
  dataCount deployed < uint256_max /\
  77 <> 0 /\
  openACL 77 = true /\
  (7 ∉ (oracleRequests deployed).*1) /\
  checkProof 7 (abi_word x05) validProof = true /\
  abi_decode_uint32 (abi_word x05) = Some 5 /\
  getDecryptedData
    (run checkProof openACL deployed
       [CallSubmit 77 1000; CallRequest (dataCount deployed + 1) 7;
        CallCallback 7 (abi_word x05) validProof])
    (dataCount deployed + 1) = (5, true).
Proof.
  assert (dataCount deployed < uint256_max) as H1 by (vm_compute; reflexivity).
  assert (77 <> 0) as H2 by discriminate.
  assert (openACL 77 = true) as H3 by reflexivity.
  assert (7 ∉ (oracleRequests deployed).*1) as H4 by compute_done.
  assert (checkProof 7 (abi_word x05) validProof = true) as H5 by reflexivity.
  assert (abi_decode_uint32 (abi_word x05) = Some 5) as H6
    by (vm_compute; reflexivity).
  split; [exact H1|]. split; [exact H2|]. split; [exact H3|]. split; [exact H4|].
  split; [exact H5|]. split; [exact H6|].
  exact (proj1 (submit_request_callback checkProof openACL deployed 77 1000 7
                  (abi_word x05) validProof 5 H1 H2 H3 H4 H5 H6)).
Defined.

(** X12 at a run. *)
Lemma oracle_requests_match_events_witness :
  reachable checkProof openACL revealed_state /\
  requestedIds (events revealed_state) = [1] /\
  oracleRequests revealed_state = [(7, [77])] /\
  Forall2 (dispatched_for revealed_state)
    (requestedIds (events revealed_state)) (oracleRequests revealed_state) /\
  NoDup (oracleRequests revealed_state).*1 /\
  (forall r i,
     requestToDataId revealed_state !! r = Some i ->
     r ∈ (oracleRequests revealed_state).*1).
Proof.
  split; [exact revealed_state_reachable|].
  split; [vm_compute; reflexivity|]. split; [vm_compute; reflexivity|].
  exact (oracle_requests_match_events checkProof openACL revealed_state
           revealed_state_reachable).
Defined.

(** X13: request 7 still maps to data point 1 after a submission, a request
    answered with id 8 and a callback. *)
Lemma request_entry_stable_witness :
  Forall (fun c => forall d, c <> CallRequest d 7)
    [CallSubmit 78 1001; CallRequest 2 8;
     CallCallback 7 (abi_word x05) validProof] /\
  requestToDataId_at
    (run checkProof openACL pending_state
       [CallSubmit 78 1001; CallRequest 2 8;
        CallCallback 7 (abi_word x05) validProof]) 7
  = requestToDataId_at pending_state 7.
Proof.
  assert (Forall (fun c => forall d, c <> CallRequest d 7)
            [CallSubmit 78 1001; CallRequest 2 8;
             CallCallback 7 (abi_word x05) validProof]) as H
    by (repeat constructor; intros d; discriminate).
  split; [exact H|].
  exact (request_entry_stable checkProof openACL pending_state _ 7 H).
Defined.
